(** * parse_markdown.py: a shallow embedding of the Markdown scanner of the
    x-article-publisher skill (skills/x-article-publisher/parse_markdown.py).

    A Python [str] is modelled as a list of characters ([list ascii], the
    characters being the code points 0..255).  Each regular expression of the
    source is written out as a small matcher that follows Python's [re]
    semantics for that particular pattern (greedy and lazy quantifiers,
    [.] not matching a newline, [$] matching at the end or before a final
    newline). *)

From Stdlib Require Import Ascii String List Arith Lia Bool.
From Stdlib Require Import Sorting.Sorted.
Import ListNotations.

Open Scope list_scope.

Definition str := list ascii.

(** String literals of the source, e.g. [lit "```"]. *)
Definition lit (s : string) : str := list_ascii_of_string s.

Definition nl : ascii := "010"%char.
Definition dquote : ascii := "034"%char.

Definition ceq (a b : ascii) : bool := Ascii.eqb a b.

(** [str.isspace] on the code points 0..255: \t \n \v \f \r, \x1c-\x1f,
    space, \x85 and \xa0.  Python's [\s] matches the same characters. *)
Definition is_space (c : ascii) : bool :=
  let n := nat_of_ascii c in
  ((9 <=? n) && (n <=? 13)) || ((28 <=? n) && (n <=? 32)) || (n =? 133) || (n =? 160).

(** [\d] on the code points 0..255. *)
Definition is_digit (c : ascii) : bool :=
  let n := nat_of_ascii c in (48 <=? n) && (n <=? 57).

Fixpoint lstrip_ws (s : str) : str :=
  match s with
  | [] => []
  | c :: t => if is_space c then lstrip_ws t else s
  end.

Definition rstrip_ws (s : str) : str := rev (lstrip_ws (rev s)).

(** [s.strip()] *)
Definition strip (s : str) : str := rstrip_ws (lstrip_ws s).

(** [s.lstrip(ch)] for a single character [ch]. *)
Fixpoint lstrip_char (ch : ascii) (s : str) : str :=
  match s with
  | [] => []
  | c :: t => if ceq c ch then lstrip_char ch t else s
  end.

(** [s.startswith(p)] *)
Fixpoint starts_with (p s : str) : bool :=
  match p, s with
  | [], _ => true
  | a :: p', b :: s' => ceq a b && starts_with p' s'
  | _ :: _, [] => false
  end.

(** The [while] loop that takes the longest prefix satisfying [p]. *)
Fixpoint span {A} (p : A -> bool) (l : list A) : list A * list A :=
  match l with
  | [] => ([], [])
  | x :: t => if p x then let (a, b) := span p t in (x :: a, b) else ([], l)
  end.

(** [sep.join(parts)] *)
Fixpoint join (sep : str) (parts : list str) : str :=
  match parts with
  | [] => []
  | [x] => x
  | x :: t => x ++ sep ++ join sep t
  end.

(** [text.split("\n")] *)
Fixpoint split_on (sep : ascii) (s : str) : list str :=
  match s with
  | [] => [[]]
  | c :: t =>
      if ceq c sep then [] :: split_on sep t
      else match split_on sep t with
           | [] => [[c]]
           | x :: r => (c :: x) :: r
           end
  end.

Definition not_nl (c : ascii) : bool := negb (ceq c nl).

(** * Inline formatter ([inline_format]) *)

(** A matcher tries a pattern at the start of the text and returns the
    replacement text and the unconsumed rest. *)
Definition matcher := str -> option (str * str).

(** [re.sub(pattern, repl, text)]: scan left to right; after a match continue
    after it, otherwise copy one character.  Every match consumes at least one
    character, so [length text] iterations suffice. *)
Fixpoint sub_fuel (m : matcher) (fuel : nat) (s : str) : str :=
  match fuel with
  | 0 => s
  | S f =>
      match s with
      | [] => []
      | c :: t =>
          match m s with
          | Some (rep, rest) => rep ++ sub_fuel m f rest
          | None => c :: sub_fuel m f t
          end
      end
  end.

Definition re_sub (m : matcher) (s : str) : str := sub_fuel m (length s) s.

(** The lazy group [(.+?)] followed by the closing delimiter [d]: at least one
    character, no newline, shortest such group. *)
Fixpoint lazy_group (d : str) (s : str) : option (str * str) :=
  match s with
  | [] => None
  | c :: t =>
      if ceq c nl then None
      else if starts_with d t then Some ([c], skipn (length d) t)
      else match lazy_group d t with
           | Some (g, r) => Some (c :: g, r)
           | None => None
           end
  end.

(** [D(.+?)D] replaced by [open \1 close]. *)
Definition delimited (d open close : str) : matcher := fun s =>
  if starts_with d s then
    match lazy_group d (skipn (length d) s) with
    | Some (g, r) => Some (open ++ g ++ close, r)
    | None => None
    end
  else None.

(** [`([^`]+)`] replaced by [<strong>\1</strong>]. *)
Definition inline_code : matcher := fun s =>
  match s with
  | c :: t =>
      if ceq c "`"%char then
        let (g, r) := span (fun x => negb (ceq x "`"%char)) t in
        match g, r with
        | _ :: _, c' :: r' => Some (lit "<strong>" ++ g ++ lit "</strong>", r')
        | _, _ => None
        end
      else None
  | [] => None
  end.

(** [\[([^\]]+)\]\(([^)]+)\)] replaced by [<a href="\2">\1</a>]. *)
Definition link : matcher := fun s =>
  match s with
  | c :: t =>
      if ceq c "["%char then
        let (a, r1) := span (fun x => negb (ceq x "]"%char)) t in
        match a, r1 with
        | _ :: _, c1 :: c2 :: r2 =>
            if ceq c2 "("%char then
              let (b, r3) := span (fun x => negb (ceq x ")"%char)) r2 in
              match b, r3 with
              | _ :: _, _ :: r4 =>
                  Some (lit "<a href=" ++ [dquote] ++ b ++ [dquote] ++ lit ">"
                          ++ a ++ lit "</a>", r4)
              | _, _ => None
              end
            else None
        | _, _ => None
        end
      else None
  | [] => None
  end.

Definition inline_format (text : str) : str :=
  let text := re_sub (delimited (lit "***") (lit "<strong><em>") (lit "</em></strong>")) text in
  let text := re_sub (delimited (lit "**") (lit "<strong>") (lit "</strong>")) text in
  let text := re_sub (delimited (lit "*") (lit "<em>") (lit "</em>")) text in
  let text := re_sub (delimited (lit "~~") (lit "<del>") (lit "</del>")) text in
  let text := re_sub inline_code text in
  re_sub link text.

Example inline_format_bold :
  inline_format (lit "a **b** c") = lit "a <strong>b</strong> c".
Proof. vm_compute. reflexivity. Qed.

(** * Line classifiers (the regular expressions of [parse_markdown]) *)

(** [re.match(r"^# (.+)$", line)], returning group 1.  [(.+)] takes the
    longest run without newline, and [$] then needs the end of the text or a
    final newline. *)
Definition h1_match (line : str) : option str :=
  match line with
  | c1 :: c2 :: rest =>
      if ceq c1 "#"%char && ceq c2 " "%char then
        let (g, r) := span not_nl rest in
        match g with
        | [] => None
        | _ :: _ =>
            match r with
            | [] => Some g
            | [c] => if ceq c nl then Some g else None
            | _ => None
            end
        end
      else None
  | _ => None
  end.

(** The image pattern of the source, matched on the stripped line:
    [!\[], group 1 = the longest run of non-[\]] characters (possibly empty),
    [\]\(], group 2 = [[^)]+], [\)], then [\s] characters up to the end.
    Returns the two groups. *)
Definition image_match (s : str) : option (str * str) :=
  match s with
  | c1 :: c2 :: rest =>
      if ceq c1 "!"%char && ceq c2 "["%char then
        let (alt, r1) := span (fun x => negb (ceq x "]"%char)) rest in
        match r1 with
        | _ :: c3 :: r2 =>
            if ceq c3 "("%char then
              let (target, r3) := span (fun x => negb (ceq x ")"%char)) r2 in
              match target, r3 with
              | _ :: _, _ :: r4 => if forallb is_space r4 then Some (alt, target) else None
              | _, _ => None
              end
            else None
        | _ => None
        end
      else None
  | _ => None
  end.

(** [re.match(r"^CCC+\s*$", s)] for the marker character [C]. *)
Definition rule_of (m : ascii) (s : str) : bool :=
  let (d, r) := span (fun x => ceq x m) s in (3 <=? length d) && forallb is_space r.

(** The divider test [^---+\s*$] or [^\*\*\*+\s*$]. *)
Definition is_divider (s : str) : bool := rule_of "-"%char s || rule_of "*"%char s.

(** [re.match(r"^(#{2,6}) (.+)$", line)], returning the level and group 2. *)
Definition h_match (line : str) : option (nat * str) :=
  let (hs, r) := span (fun x => ceq x "#"%char) line in
  if (2 <=? length hs) && (length hs <=? 6) then
    match r with
    | c :: rest =>
        if ceq c " "%char then
          let (g, r') := span not_nl rest in
          match g with
          | [] => None
          | _ :: _ =>
              match r' with
              | [] => Some (length hs, g)
              | [c'] => if ceq c' nl then Some (length hs, g) else None
              | _ => None
              end
          end
        else None
    | [] => None
    end
  else None.

(** [re.match(r"^#{1,6} ", s)] *)
Definition heading_start (s : str) : bool :=
  let (hs, r) := span (fun x => ceq x "#"%char) s in
  (1 <=? length hs) && (length hs <=? 6) && starts_with (lit " ") r.

(** [re.match(r"^[-*+] ", s)] *)
Definition ul_start (s : str) : bool :=
  match s with
  | c :: c' :: _ => (ceq c "-"%char || ceq c "*"%char || ceq c "+"%char) && ceq c' " "%char
  | _ => false
  end.

(** [re.match(r"^\d+\. ", s)] *)
Definition ol_start (s : str) : bool :=
  let (ds, r) := span is_digit s in
  match ds with
  | [] => false
  | _ :: _ => starts_with (lit ". ") r
  end.

(** [re.match(r"^\|.+\|", s)]: a second pipe after at least one character,
    with no newline in between. *)
Definition table_start (s : str) : bool :=
  match s with
  | c :: rest => ceq c "|"%char && existsb (fun x => ceq x "|"%char) (tl (fst (span not_nl rest)))
  | [] => false
  end.

(** The loop conditions, tested on the unstripped line: [\s*] absorbs the
    leading whitespace. *)
Definition quote_line (l : str) : bool := starts_with (lit "> ") (strip l).
Definition ul_line (l : str) : bool := ul_start (lstrip_ws l).      (* ^\s*[-*+]  *)
Definition ol_line (l : str) : bool := ol_start (lstrip_ws l).      (* ^\s*\d+\.  *)
Definition table_line (l : str) : bool := table_start (lstrip_ws l). (* ^\s*\|.+\| *)

(** [re.sub(r"^\s*[-*+] ", "", line).strip()] *)
Definition ul_item (l : str) : str := strip (skipn 2 (lstrip_ws l)).

(** [re.sub(r"^\s*\d+\. ", "", line).strip()] *)
Definition ol_item (l : str) : str :=
  strip (skipn 2 (snd (span is_digit (lstrip_ws l)))).

Definition is_fence (s : str) : bool := starts_with (lit "```") s.

(** [_is_block_start(line)] *)
Definition _is_block_start (line : str) : bool :=
  let s := strip line in
  match s with
  | [] => true
  | _ :: _ =>
      heading_start s || starts_with (lit "> ") s || ul_start s || ol_start s
      || is_fence s || is_divider s || starts_with (lit "![") s || table_start s
  end.

(** The paragraph loop condition [lines[i].strip() and not _is_block_start(lines[i])]. *)
Definition para_line (l : str) : bool :=
  match strip l with
  | [] => false
  | _ :: _ => negb (_is_block_start l)
  end.

(** * Paths: [os.path.isabs], [os.path.join], [os.path.normpath] (posixpath) *)

Definition slash : ascii := "/"%char.

Definition isabs (p : str) : bool := starts_with [slash] p.

Definition path_join (a b : str) : str :=
  if starts_with [slash] b then b
  else match a with
       | [] => b
       | _ :: _ => if ceq (last a " "%char) slash then a ++ b else a ++ [slash] ++ b
       end.

(** One iteration of the component loop of [normpath]; [acc] is [new_comps]
    with its last element first. *)
Definition normpath_comp (initial_slashes : nat) (acc : list str) (comp : str) : list str :=
  if (match comp with [] => true | _ => false end) || starts_with comp (lit ".") && (length comp =? 1)
  then acc
  else
    let is_dotdot := (length comp =? 2) && starts_with (lit "..") comp in
    if negb is_dotdot
       || ((initial_slashes =? 0) && (match acc with [] => true | _ => false end))
       || (match acc with c :: _ => (length c =? 2) && starts_with (lit "..") c | [] => false end)
    then comp :: acc
    else match acc with
         | _ :: acc' => acc'
         | [] => acc
         end.

Definition normpath (path : str) : str :=
  match path with
  | [] => lit "."
  | _ :: _ =>
      let initial_slashes :=
        if starts_with [slash] path then
          if starts_with (lit "//") path && negb (starts_with (lit "///") path) then 2 else 1
        else 0 in
      let comps := rev (fold_left (normpath_comp initial_slashes) (split_on slash path) []) in
      let p := repeat slash initial_slashes ++ join [slash] comps in
      match p with
      | [] => lit "."
      | _ :: _ => p
      end
  end.

(** [if not os.path.isabs(p) and not p.startswith("http"): p = normpath(join(md_dir, p))] *)
Definition resolve_image (md_dir p : str) : str :=
  if negb (isabs p) && negb (starts_with (lit "http") p) then normpath (path_join md_dir p)
  else p.

(** * The scanner state of [parse_markdown] *)

(** An entry of [code_blocks]: [{"language", "code", "block_index"}]. *)
Record code_block := mk_code_block {
  cb_language : str;
  cb_code : str;
  cb_block_index : nat
}.

(** An entry of [content_images]: [{"path", "block_index"}]. *)
Record content_image := mk_content_image {
  img_path : str;
  img_block_index : nat
}.

(** The local variables of the scan loop. *)
Record scan_state := mk_scan_state {
  title : str;
  cover_image : option str;
  content_images : list content_image;
  code_blocks : list code_block;
  dividers : list nat;
  body_lines : list str;
  in_code_block : bool;
  code_lang : str;
  code_content : list str;
  first_image_seen : bool;
  block_index : nat
}.

Definition init_state : scan_state :=
  mk_scan_state [] None [] [] [] [] false [] [] false 0.

(** The assignments performed by the branches of the loop body. *)

Definition open_fence (st : scan_state) (lang : str) : scan_state :=
  mk_scan_state (title st) (cover_image st) (content_images st) (code_blocks st)
    (dividers st) (body_lines st) true lang [] (first_image_seen st) (block_index st).

Definition push_code_line (st : scan_state) (line : str) : scan_state :=
  mk_scan_state (title st) (cover_image st) (content_images st) (code_blocks st)
    (dividers st) (body_lines st) (in_code_block st) (code_lang st)
    (code_content st ++ [line]) (first_image_seen st) (block_index st).

(** [code_blocks.append({...}); block_index += 1] *)
Definition add_code_block (st : scan_state) (lang code : str) : scan_state :=
  mk_scan_state (title st) (cover_image st) (content_images st)
    (code_blocks st ++ [mk_code_block lang code (block_index st)])
    (dividers st) (body_lines st) (in_code_block st) (code_lang st)
    (code_content st) (first_image_seen st) (S (block_index st)).

(** Closing fence: [in_code_block = False], the block is stored when its text
    is not blank, then [code_lang = ""; code_content = []]. *)
Definition close_fence (st : scan_state) : scan_state :=
  let code_text := join [nl] (code_content st) in
  let st1 :=
    match strip code_text with
    | [] => st
    | _ :: _ =>
        add_code_block st
          (match code_lang st with [] => lit "text" | l => l end) code_text
    end in
  mk_scan_state (title st1) (cover_image st1) (content_images st1) (code_blocks st1)
    (dividers st1) (body_lines st1) false [] [] (first_image_seen st1) (block_index st1).

Definition set_title (st : scan_state) (t : str) : scan_state :=
  mk_scan_state t (cover_image st) (content_images st) (code_blocks st)
    (dividers st) (body_lines st) (in_code_block st) (code_lang st)
    (code_content st) (first_image_seen st) (block_index st).

(** The first image becomes the cover, every later one is appended to
    [content_images] at the current [block_index]. *)
Definition record_image (st : scan_state) (img_path : str) : scan_state :=
  if first_image_seen st then
    mk_scan_state (title st) (cover_image st)
      (content_images st ++ [mk_content_image img_path (block_index st)])
      (code_blocks st) (dividers st) (body_lines st) (in_code_block st) (code_lang st)
      (code_content st) true (block_index st)
  else
    mk_scan_state (title st) (Some img_path) (content_images st) (code_blocks st)
      (dividers st) (body_lines st) (in_code_block st) (code_lang st)
      (code_content st) true (block_index st).

Definition add_divider (st : scan_state) : scan_state :=
  mk_scan_state (title st) (cover_image st) (content_images st) (code_blocks st)
    (dividers st ++ [block_index st]) (body_lines st) (in_code_block st) (code_lang st)
    (code_content st) (first_image_seen st) (block_index st).

(** [body_lines.append(html); block_index += 1] *)
Definition emit_block (st : scan_state) (html : str) : scan_state :=
  mk_scan_state (title st) (cover_image st) (content_images st) (code_blocks st)
    (dividers st) (body_lines st ++ [html]) (in_code_block st) (code_lang st)
    (code_content st) (first_image_seen st) (S (block_index st)).

Definition tag (t : str) (body : str) : str :=
  lit "<" ++ t ++ lit ">" ++ body ++ lit "</" ++ t ++ lit ">".

Definition digit_of (n : nat) : ascii := ascii_of_nat (48 + n).

(** The branches after the code-block and title tests, for a line outside a
    code block.  [rest] is [lines[i+1:]]; the result is the new state and
    the lines still to scan. *)
Definition scan_line (md_dir : str) (st : scan_state) (line : str) (rest : list str)
  : scan_state * list str :=
  let stripped := strip line in
  match image_match stripped with
  | Some (_, target) => (record_image st (resolve_image md_dir (strip target)), rest)
  | None =>
  if is_divider stripped then (add_divider st, rest)
  else match stripped with
  | [] => (st, rest)
  | _ :: _ =>
  match h_match line with
  | Some (level, g) =>
      (emit_block st (tag (lit "h" ++ [digit_of level]) (inline_format (strip g))), rest)
  | None =>
  if starts_with (lit "> ") stripped then
    let (quote_lines, rest') := span quote_line (line :: rest) in
    (emit_block st (tag (lit "blockquote")
       (inline_format (join (lit " ") (map (fun l => skipn 2 (strip l)) quote_lines)))), rest')
  else if ul_start stripped then
    let (items, rest') := span ul_line (line :: rest) in
    (emit_block st (tag (lit "ul")
       (concat (map (fun l => tag (lit "li") (inline_format (ul_item l))) items))), rest')
  else if ol_start stripped then
    let (items, rest') := span ol_line (line :: rest) in
    (emit_block st (tag (lit "ol")
       (concat (map (fun l => tag (lit "li") (inline_format (ol_item l))) items))), rest')
  else if table_start stripped then
    let (table_lines, rest') := span table_line (line :: rest) in
    if 2 <=? length table_lines then
      (add_code_block st (lit "__table__") (join [nl] (map strip table_lines)), rest')
    else (st, rest')
  else
    let (para_lines, rest') := span para_line (line :: rest) in
    match para_lines with
    | [] => (st, rest)
    | _ :: _ =>
        (emit_block st (tag (lit "p") (inline_format (join (lit " ") (map strip para_lines)))), rest')
    end
  end
  end
  end.

(** One iteration of [while i < len(lines)], on the remaining lines [lines[i:]]. *)
Definition step (md_dir : str) (st : scan_state) (lines : list str) : scan_state * list str :=
  match lines with
  | [] => (st, [])
  | line :: rest =>
      if is_fence (strip line) then
        if negb (in_code_block st) then
          (open_fence st (strip (lstrip_char "`"%char (strip line))), rest)
        else (close_fence st, rest)
      else if in_code_block st then (push_code_line st line, rest)
      else match h1_match line, title st with
           | Some g, [] => (set_title st (strip g), rest)
           | _, _ => scan_line md_dir st line rest
           end
  end.

(** The loop; every iteration consumes at least one line (lemma
    [step_consumes] below), so [length lines] iterations suffice. *)
Fixpoint scan (md_dir : str) (fuel : nat) (st : scan_state) (lines : list str) : scan_state :=
  match fuel with
  | 0 => st
  | S f =>
      match lines with
      | [] => st
      | _ :: _ => let (st', rest) := step md_dir st lines in scan md_dir f st' rest
      end
  end.

(** The returned dictionary. *)
Record document := mk_document {
  doc_title : str;
  doc_cover_image : option str;
  doc_content_images : list content_image;
  doc_code_blocks : list code_block;
  doc_dividers : list nat;
  doc_total_blocks : nat;
  doc_html : str
}.

Definition finish (st : scan_state) : document :=
  mk_document (title st) (cover_image st) (content_images st) (code_blocks st)
    (dividers st) (block_index st) (join [nl] (body_lines st)).

(** The scan of a line sequence (the content after [strip_frontmatter],
    split at newlines). *)
Definition parse_lines (md_dir : str) (lines : list str) : document :=
  finish (scan md_dir (length lines) init_state lines).

(** * [strip_frontmatter] *)

(** [text.find(pat, i)] on the suffix [s = text[i:]]. *)
Fixpoint find_from (pat s : str) (i : nat) : option nat :=
  match s with
  | [] => match pat with [] => Some i | _ => None end
  | _ :: t => if starts_with pat s then Some i else find_from pat t (S i)
  end.

(** [s.lstrip("\n")] *)
Definition lstrip_nl (s : str) : str := lstrip_char nl s.

Definition strip_frontmatter (text : str) : str :=
  if starts_with (lit "---") text then
    match find_from (lit "---") (skipn 3 text) 3 with
    | Some e => lstrip_nl (skipn (e + 3) text)
    | None => text
    end
  else text.

(** [parse_markdown(filepath)] once the file is read: [md_dir] is
    [os.path.dirname(os.path.abspath(filepath))] and [content] the text. *)
Definition parse_markdown (md_dir content : str) : document :=
  parse_lines md_dir (split_on nl (strip_frontmatter content)).

(** * General facts about the string and list helpers *)

Lemma ceq_refl (c : ascii) : ceq c c = true.
Proof. apply Ascii.eqb_refl. Qed.

Lemma ceq_true (a b : ascii) : ceq a b = true -> a = b.
Proof. apply Ascii.eqb_eq. Qed.

Lemma span_split {A} (p : A -> bool) (l : list A) :
  l = fst (span p l) ++ snd (span p l).
Proof.
  induction l as [|x t IH]; simpl; [reflexivity|].
  destruct (p x); [|reflexivity].
  destruct (span p t) as [a b] eqn:E; simpl in *. now rewrite IH at 1.
Qed.

Lemma span_all {A} (p : A -> bool) (l : list A) :
  forallb p (fst (span p l)) = true.
Proof.
  induction l as [|x t IH]; simpl; [reflexivity|].
  destruct (p x) eqn:Hx; [|reflexivity].
  destruct (span p t) as [a b] eqn:E; simpl in *. now rewrite Hx, IH.
Qed.

Lemma span_stop {A} (p : A -> bool) (l : list A) (c : A) (b : list A) :
  snd (span p l) = c :: b -> p c = false.
Proof.
  induction l as [|x t IH]; simpl; [discriminate|].
  destruct (p x) eqn:Hx.
  - destruct (span p t) as [a' b'] eqn:E; simpl in *. exact IH.
  - intros H; injection H as -> ->. exact Hx.
Qed.

(** The loop stops at a line [f] failing the condition: whatever follows [f]
    is not looked at. *)
Lemma span_app_stop {A} (p : A -> bool) (l r : list A) (f : A) :
  p f = false ->
  span p (l ++ f :: r) = (fst (span p l), snd (span p l) ++ f :: r).
Proof.
  intros Hf. induction l as [|x t IH]; simpl.
  - now rewrite Hf.
  - destruct (p x); [|reflexivity].
    rewrite IH. destruct (span p t); reflexivity.
Qed.

Lemma span_app_cons {A} (p : A -> bool) (x w : list A) (c : A) (b : list A) :
  snd (span p x) = c :: b ->
  span p (x ++ w) = (fst (span p x), c :: b ++ w).
Proof.
  induction x as [|y t IH]; simpl; [discriminate|].
  destruct (p y).
  - destruct (span p t) as [a' b'] eqn:E; simpl in *. intros H.
    rewrite (IH H). reflexivity.
  - intros H; injection H as -> ->. reflexivity.
Qed.

Lemma fst_span_app {A} (p : A -> bool) (x w : list A) :
  exists t, fst (span p (x ++ w)) = fst (span p x) ++ t.
Proof.
  induction x as [|y t IH]; simpl.
  - exists (fst (span p w)). reflexivity.
  - destruct (p y).
    + destruct IH as [t' Ht']. destruct (span p (t ++ w)) eqn:E1.
      destruct (span p t) eqn:E2. simpl in *. exists t'. now rewrite Ht'.
    + exists []. reflexivity.
Qed.

Lemma span_head_true {A} (p : A -> bool) (x : A) (l : list A) :
  p x = true -> length (snd (span p (x :: l))) <= length l.
Proof.
  intros Hx. simpl. rewrite Hx.
  destruct (span p l) as [a b] eqn:E. simpl.
  pose proof (span_split p l) as Hs. rewrite E in Hs. simpl in Hs.
  rewrite Hs. rewrite length_app. lia.
Qed.

Lemma starts_with_app (p x w : str) :
  starts_with p x = true -> starts_with p (x ++ w) = true.
Proof.
  revert x. induction p as [|a p IH]; intros x; [reflexivity|].
  destruct x as [|b x]; simpl; [discriminate|].
  intros H. apply andb_true_iff in H as [H1 H2]. now rewrite H1, IH.
Qed.

Lemma starts_with_spec (p s : str) :
  starts_with p s = true <-> exists w, s = p ++ w.
Proof.
  revert s. induction p as [|a p IH]; intros s; simpl.
  - split; [now exists s | reflexivity].
  - destruct s as [|b s].
    + split; [discriminate | intros [w Hw]; discriminate].
    + rewrite andb_true_iff, IH. split.
      * intros [H1 [w Hw]]. apply ceq_true in H1. subst. now exists w.
      * intros [w Hw]. injection Hw as -> Hw. split; [apply ceq_refl | now exists w].
Qed.

Lemma lstrip_suffix (s : str) :
  exists u, s = u ++ lstrip_ws s /\ forallb is_space u = true.
Proof.
  induction s as [|c t IH]; simpl.
  - now exists [].
  - destruct (is_space c) eqn:Hc.
    + destruct IH as [u [Hu Hs]]. exists (c :: u). simpl. rewrite Hc, <- Hu. auto.
    + now exists [].
Qed.

Lemma rstrip_prefix (s : str) : exists w, s = rstrip_ws s ++ w.
Proof.
  unfold rstrip_ws. destruct (lstrip_suffix (rev s)) as [u [Hu _]].
  exists (rev u). rewrite <- rev_app_distr, <- Hu, rev_involutive. reflexivity.
Qed.

Lemma strip_prefix (s : str) : exists w, lstrip_ws s = strip s ++ w.
Proof. apply rstrip_prefix. Qed.

Lemma lstrip_app_nonspace (y z : str) (c : ascii) :
  is_space c = false -> lstrip_ws (y ++ c :: z) = lstrip_ws y ++ c :: z.
Proof.
  intros Hc. induction y as [|d y IH]; simpl.
  - now rewrite Hc.
  - destruct (is_space d); [exact IH | reflexivity].
Qed.

Lemma rstrip_app_nonspace (u v : str) (c : ascii) :
  is_space c = false -> rstrip_ws (u ++ c :: v) = u ++ c :: rstrip_ws v.
Proof.
  intros Hc. unfold rstrip_ws.
  rewrite rev_app_distr. simpl. rewrite <- app_assoc. simpl.
  rewrite lstrip_app_nonspace by exact Hc.
  rewrite rev_app_distr. simpl. rewrite rev_involutive, <- app_assoc. reflexivity.
Qed.

Lemma strip_cons_nonspace (c : ascii) (t : str) :
  is_space c = false -> strip (c :: t) = c :: rstrip_ws t.
Proof.
  intros Hc. unfold strip. simpl. rewrite Hc.
  apply (rstrip_app_nonspace [] t c Hc).
Qed.

(** The first character of a stripped line is the first character of the
    line, or the line starts with whitespace. *)
Lemma strip_head (l : str) (c : ascii) (u : str) :
  strip l = c :: u -> exists d t, l = d :: t /\ (is_space d = true \/ d = c).
Proof.
  destruct (strip_prefix l) as [w Hw]. intros H. rewrite H in Hw.
  destruct l as [|d t]; [discriminate|].
  exists d, t. split; [reflexivity|].
  simpl in Hw. destruct (is_space d) eqn:Hd; [now left|].
  right. now injection Hw.
Qed.

(** The line tests only look at a prefix of the text. *)

Lemma ul_start_app (x w : str) : ul_start x = true -> ul_start (x ++ w) = true.
Proof. destruct x as [|c [|c' x]]; simpl; easy. Qed.

Lemma ol_start_app (x w : str) : ol_start x = true -> ol_start (x ++ w) = true.
Proof.
  unfold ol_start. pose proof (span_split is_digit x) as Hs.
  destruct (span is_digit x) as [ds r] eqn:E. simpl in Hs.
  destruct ds as [|d ds]; [discriminate|]. intros H.
  destruct r as [|c r]; [discriminate|].
  rewrite (span_app_cons is_digit x w c r) by (rewrite E; reflexivity).
  rewrite E. simpl. apply (starts_with_app _ (c :: r) w) in H. exact H.
Qed.

Lemma table_start_app (x w : str) : table_start x = true -> table_start (x ++ w) = true.
Proof.
  destruct x as [|c rest]; [discriminate|]. simpl.
  intros H. apply andb_true_iff in H as [H1 H2]. rewrite H1. simpl.
  destruct (fst_span_app not_nl rest w) as [t Ht]. rewrite Ht.
  destruct (fst (span not_nl rest)) as [|a l]; [discriminate|].
  simpl in *. rewrite existsb_app, H2. reflexivity.
Qed.

Lemma ul_line_of_strip (l : str) : ul_start (strip l) = true -> ul_line l = true.
Proof.
  unfold ul_line. destruct (strip_prefix l) as [w ->]. apply ul_start_app.
Qed.

Lemma ol_line_of_strip (l : str) : ol_start (strip l) = true -> ol_line l = true.
Proof.
  unfold ol_line. destruct (strip_prefix l) as [w ->]. apply ol_start_app.
Qed.

Lemma table_line_of_strip (l : str) : table_start (strip l) = true -> table_line l = true.
Proof.
  unfold table_line. destruct (strip_prefix l) as [w ->]. apply table_start_app.
Qed.

(** * Termination of the scan loop *)

Lemma scan_line_consumes (md_dir : str) (st : scan_state) (line : str) (rest : list str) :
  length (snd (scan_line md_dir st line rest)) <= length rest.
Proof.
  unfold scan_line.
  destruct (image_match (strip line)) as [[? ?]|]; [simpl; lia|].
  destruct (is_divider (strip line)); [simpl; lia|].
  destruct (strip line) as [|a l] eqn:Es; [simpl; lia|].
  destruct (h_match line) as [[? ?]|]; [simpl; lia|].
  destruct (starts_with (lit "> ") (a :: l)) eqn:Eq.
  { assert (Hq : quote_line line = true) by (unfold quote_line; now rewrite Es).
    pose proof (span_head_true quote_line line rest Hq) as H.
    destruct (span quote_line (line :: rest)). exact H. }
  destruct (ul_start (a :: l)) eqn:Eu.
  { assert (Hq : ul_line line = true) by (apply ul_line_of_strip; now rewrite Es).
    pose proof (span_head_true ul_line line rest Hq) as H.
    destruct (span ul_line (line :: rest)). exact H. }
  destruct (ol_start (a :: l)) eqn:Eo.
  { assert (Hq : ol_line line = true) by (apply ol_line_of_strip; now rewrite Es).
    pose proof (span_head_true ol_line line rest Hq) as H.
    destruct (span ol_line (line :: rest)). exact H. }
  destruct (table_start (a :: l)) eqn:Et.
  { assert (Hq : table_line line = true) by (apply table_line_of_strip; now rewrite Es).
    pose proof (span_head_true table_line line rest Hq) as H.
    destruct (span table_line (line :: rest)).
    destruct (2 <=? length l0); exact H. }
  destruct (para_line line) eqn:Ep.
  - pose proof (span_head_true para_line line rest Ep) as H.
    destruct (span para_line (line :: rest)) as [[|x xs] r]; simpl in *; [lia | exact H].
  - simpl. rewrite Ep. simpl. lia.
Qed.

Lemma step_consumes (md_dir : str) (st : scan_state) (line : str) (rest : list str) :
  length (snd (step md_dir st (line :: rest))) <= length rest.
Proof.
  unfold step.
  destruct (is_fence (strip line)); [destruct (negb (in_code_block st)); simpl; lia|].
  destruct (in_code_block st); [simpl; lia|].
  destruct (h1_match line) as [g|]; [destruct (title st); [simpl; lia|]|];
    apply scan_line_consumes.
Qed.

Lemma scan_fuel (md_dir : str) (n : nat) :
  forall f1 f2 st lines, length lines <= n -> length lines <= f1 -> length lines <= f2 ->
  scan md_dir f1 st lines = scan md_dir f2 st lines.
Proof.
  induction n as [|n IH]; intros f1 f2 st lines Hn H1 H2.
  - destruct lines; [|simpl in Hn; lia].
    destruct f1, f2; reflexivity.
  - destruct lines as [|l ls]; [destruct f1, f2; reflexivity|].
    simpl in H1, H2, Hn.
    destruct f1 as [|f1]; [lia|]. destruct f2 as [|f2]; [lia|].
    cbn [scan]. pose proof (step_consumes md_dir st l ls) as Hc.
    destruct (step md_dir st (l :: ls)) as [st' r] eqn:E. simpl in Hc.
    apply IH; lia.
Qed.

Lemma scan_more_fuel (md_dir : str) (f : nat) (st : scan_state) (lines : list str) :
  length lines <= f -> scan md_dir f st lines = scan md_dir (length lines) st lines.
Proof. intros H. apply (scan_fuel md_dir f); lia. Qed.

(** * The block-index invariant *)

Definition indices_below (n : nat) (l : list nat) : Prop := Forall (fun x => x <= n) l.

Record index_inv (st : scan_state) : Prop := {
  inv_count : block_index st = length (body_lines st) + length (code_blocks st);
  inv_img_below : indices_below (block_index st) (map img_block_index (content_images st));
  inv_code_below : indices_below (block_index st) (map cb_block_index (code_blocks st));
  inv_div_below : indices_below (block_index st) (dividers st);
  inv_img_sorted : Sorted le (map img_block_index (content_images st));
  inv_code_sorted : Sorted le (map cb_block_index (code_blocks st));
  inv_div_sorted : Sorted le (dividers st)
}.

Lemma sorted_snoc (l : list nat) (x : nat) :
  Sorted le l -> indices_below x l -> Sorted le (l ++ [x]).
Proof.
  induction l as [|a l IH]; simpl; intros Hs Hb.
  - repeat constructor.
  - inversion Hs as [|? ? Hs' Hhd]; subst. inversion Hb as [|? ? Ha Hb']; subst.
    constructor; [now apply IH|].
    destruct l as [|b l]; simpl; constructor.
    + exact Ha.
    + now inversion Hhd.
Qed.

Lemma indices_below_snoc (n x : nat) (l : list nat) :
  indices_below n l -> x <= n -> indices_below n (l ++ [x]).
Proof. intros H Hx. apply Forall_app. split; [exact H | now constructor]. Qed.

Lemma indices_below_S (n : nat) (l : list nat) :
  indices_below n l -> indices_below (S n) l.
Proof. apply Forall_impl. lia. Qed.

Lemma init_inv : index_inv init_state.
Proof. split; simpl; try constructor; reflexivity. Qed.

Lemma open_fence_inv st lang : index_inv st -> index_inv (open_fence st lang).
Proof. intros []; split; assumption. Qed.

Lemma push_code_line_inv st line : index_inv st -> index_inv (push_code_line st line).
Proof. intros []; split; assumption. Qed.

Lemma set_title_inv st t : index_inv st -> index_inv (set_title st t).
Proof. intros []; split; assumption. Qed.

Lemma add_code_block_inv st lang code : index_inv st -> index_inv (add_code_block st lang code).
Proof.
  intros []; split; simpl; rewrite ?map_app; simpl.
  - rewrite length_app. simpl. lia.
  - now apply indices_below_S.
  - apply indices_below_snoc; [now apply indices_below_S | lia].
  - now apply indices_below_S.
  - assumption.
  - now apply sorted_snoc.
  - assumption.
Qed.

Lemma close_fence_inv st : index_inv st -> index_inv (close_fence st).
Proof.
  intros Hi. unfold close_fence.
  assert (H : index_inv (match strip (join [nl] (code_content st)) with
                         | [] => st
                         | _ :: _ => add_code_block st
                              (match code_lang st with [] => lit "text" | l => l end)
                              (join [nl] (code_content st))
                         end))
    by (destruct (strip _); [exact Hi | now apply add_code_block_inv]).
  destruct H; split; assumption.
Qed.

Lemma record_image_inv st p : index_inv st -> index_inv (record_image st p).
Proof.
  intros []. unfold record_image. destruct (first_image_seen st); split; simpl;
    rewrite ?map_app; try assumption.
  - apply indices_below_snoc; [assumption | simpl; lia].
  - now apply sorted_snoc.
Qed.

Lemma add_divider_inv st : index_inv st -> index_inv (add_divider st).
Proof.
  intros []. split; simpl; try assumption.
  - apply indices_below_snoc; [assumption | lia].
  - now apply sorted_snoc.
Qed.

Lemma emit_block_inv st h : index_inv st -> index_inv (emit_block st h).
Proof.
  intros []. split; simpl; try assumption.
  - rewrite length_app. simpl. lia.
  - now apply indices_below_S.
  - now apply indices_below_S.
  - now apply indices_below_S.
Qed.

Create HintDb scan_inv.
#[local] Hint Resolve open_fence_inv push_code_line_inv set_title_inv add_code_block_inv
  close_fence_inv record_image_inv add_divider_inv emit_block_inv : scan_inv.

(** Split every test of a branch of the loop body. *)
Ltac split_branches :=
  repeat match goal with
  | |- context [if ?b then _ else _] => destruct b
  | |- context [match ?x with _ => _ end] =>
      lazymatch x with
      | context [match _ with _ => _ end] => fail
      | _ => destruct x
      end
  end.

(** The same, keeping the equation of each scrutinee. *)
Ltac split_branches_eqn :=
  repeat match goal with
  | |- context [if ?b then _ else _] => destruct b eqn:?
  | |- context [match ?x with _ => _ end] =>
      lazymatch x with
      | context [match _ with _ => _ end] => fail
      | _ => destruct x eqn:?
      end
  end.

Lemma scan_line_inv md_dir st line rest :
  index_inv st -> index_inv (fst (scan_line md_dir st line rest)).
Proof.
  intros Hi. unfold scan_line. split_branches; simpl; eauto with scan_inv.
Qed.

Lemma step_inv md_dir st lines :
  index_inv st -> index_inv (fst (step md_dir st lines)).
Proof.
  intros Hi. unfold step. destruct lines as [|line rest]; [exact Hi|].
  destruct (is_fence (strip line)); [destruct (negb (in_code_block st)); simpl; eauto with scan_inv|].
  destruct (in_code_block st); [simpl; eauto with scan_inv|].
  destruct (h1_match line); [destruct (title st); [simpl; eauto with scan_inv|]|];
    apply scan_line_inv; exact Hi.
Qed.

Lemma scan_preserves_inv md_dir : forall fuel st lines,
  index_inv st -> index_inv (scan md_dir fuel st lines).
Proof.
  induction fuel as [|f IH]; intros st lines Hi; [exact Hi|].
  destruct lines as [|l ls]; [exact Hi|]. cbn [scan].
  pose proof (step_inv md_dir st (l :: ls) Hi) as H.
  destruct (step md_dir st (l :: ls)). apply IH. exact H.
Qed.

(** * Lines that end every run *)

(** A line that no run continues over: it is not a quote, list or table line
    and it starts a block, so the paragraph loop stops there as well. *)
Definition stopper (f : str) : bool :=
  negb (quote_line f) && negb (ul_line f) && negb (ol_line f) && negb (table_line f)
  && _is_block_start f.

Definition head_ok (c : ascii) : bool :=
  negb (ceq c ">"%char || ceq c "-"%char || ceq c "*"%char || ceq c "+"%char
        || is_digit c || ceq c "|"%char).

Lemma stopper_of_head (f : str) (c : ascii) (u : str) :
  strip f = c :: u -> head_ok c = true -> _is_block_start f = true -> stopper f = true.
Proof.
  intros Hs Hc Hb. unfold stopper, quote_line, ul_line, ol_line, table_line.
  destruct (strip_prefix f) as [w Hw]. rewrite Hw, Hs, Hb.
  unfold head_ok in Hc. rewrite !negb_orb in Hc.
  repeat rewrite andb_true_iff in Hc.
  destruct Hc as [[[[[H1 H2] H3] H4] H5] H6].
  apply negb_true_iff in H1, H2, H3, H4, H5, H6.
  assert (H1' : ceq ">"%char c = false) by (unfold ceq; now rewrite Ascii.eqb_sym).
  change (lit "> ") with [">"%char; " "%char].
  cbn [starts_with app]. rewrite H1'.
  unfold ul_start, ol_start, table_start. cbn [span]. rewrite H5, H6.
  destruct (u ++ w); rewrite ?H2, ?H3, ?H4; reflexivity.
Qed.

Lemma para_line_stop (f : str) : _is_block_start f = true -> para_line f = false.
Proof. unfold para_line. intros H. destruct (strip f); [reflexivity | now rewrite H]. Qed.

Lemma scan_line_app_stop md_dir st line rest f r :
  stopper f = true ->
  scan_line md_dir st line (rest ++ f :: r)
  = (fst (scan_line md_dir st line rest), snd (scan_line md_dir st line rest) ++ f :: r).
Proof.
  intros Hf. unfold stopper in Hf. repeat rewrite andb_true_iff in Hf.
  destruct Hf as [[[[Hq Hu] Ho] Ht] Hb].
  apply negb_true_iff in Hq, Hu, Ho, Ht.
  pose proof (para_line_stop f Hb) as Hp.
  pose proof (span_app_stop quote_line (line :: rest) r f Hq) as Eq.
  pose proof (span_app_stop ul_line (line :: rest) r f Hu) as Eu.
  pose proof (span_app_stop ol_line (line :: rest) r f Ho) as Eo.
  pose proof (span_app_stop table_line (line :: rest) r f Ht) as Et.
  pose proof (span_app_stop para_line (line :: rest) r f Hp) as Ep.
  cbn [app] in Eq, Eu, Eo, Et, Ep.
  unfold scan_line. rewrite Eq, Eu, Eo, Et, Ep.
  destruct (span quote_line (line :: rest)), (span ul_line (line :: rest)),
    (span ol_line (line :: rest)), (span table_line (line :: rest)),
    (span para_line (line :: rest)).
  simpl. split_branches; reflexivity.
Qed.

Lemma step_app_stop md_dir st l ls f r :
  stopper f = true ->
  step md_dir st ((l :: ls) ++ f :: r)
  = (fst (step md_dir st (l :: ls)), snd (step md_dir st (l :: ls)) ++ f :: r).
Proof.
  intros Hf. cbn [app]. unfold step.
  destruct (is_fence (strip l)); [destruct (negb (in_code_block st)); reflexivity|].
  destruct (in_code_block st); [reflexivity|].
  destruct (h1_match l); [destruct (title st); [reflexivity|]|];
    apply scan_line_app_stop; exact Hf.
Qed.

(** The scan of [ls ++ f :: r] is the scan of [ls] followed by the scan of
    [f :: r]. *)
Lemma scan_app_stop md_dir f r (Hf : stopper f = true) :
  forall n ls st, length ls <= n ->
  scan md_dir (length (ls ++ f :: r)) st (ls ++ f :: r)
  = scan md_dir (length (f :: r)) (scan md_dir (length ls) st ls) (f :: r).
Proof.
  induction n as [|n IH]; intros ls st Hn.
  - destruct ls; [reflexivity | simpl in Hn; lia].
  - destruct ls as [|l ls0]; [reflexivity|].
    pose proof (step_app_stop md_dir st l ls0 f r Hf) as Hs.
    pose proof (step_consumes md_dir st l ls0) as Hc.
    destruct (step md_dir st (l :: ls0)) as [st1 r1] eqn:E. cbn [fst snd app] in Hs, Hc.
    change (scan md_dir (S (length (ls0 ++ f :: r))) st ((l :: ls0) ++ f :: r)
            = scan md_dir (length (f :: r)) (scan md_dir (S (length ls0)) st (l :: ls0)) (f :: r)).
    cbn [scan app]. rewrite Hs, E.
    rewrite scan_more_fuel by (rewrite !length_app; simpl; lia).
    rewrite (scan_more_fuel md_dir (length ls0)) by lia.
    apply IH. simpl in Hn. lia.
Qed.

Lemma fence_stopper (f : str) : is_fence (strip f) = true -> stopper f = true.
Proof.
  intros H. destruct (strip f) as [|c u] eqn:Es; [discriminate|].
  assert (Hc : c = "`"%char)
    by (apply starts_with_spec in H; destruct H as [w Hw]; now injection Hw).
  subst c. apply (stopper_of_head f "`"%char u Es eq_refl).
  unfold _is_block_start. rewrite Es, H. rewrite !orb_true_r. reflexivity.
Qed.

(** Inside a code block, lines other than a fence are only collected. *)
Lemma scan_in_code md_dir : forall post st,
  in_code_block st = true ->
  Forall (fun l => is_fence (strip l) = false) post ->
  finish (scan md_dir (length post) st post) = finish st.
Proof.
  induction post as [|l post IH]; intros st Hc Hp; [reflexivity|].
  inversion Hp as [|? ? Hl Hp']; subst.
  cbn [scan length]. unfold step. rewrite Hl, Hc.
  rewrite IH; [reflexivity | exact Hc | exact Hp'].
Qed.

(** * Dispatch: which branch a line reaches *)

Lemma ceq_false (a b : ascii) : a <> b -> ceq a b = false.
Proof. apply Ascii.eqb_neq. Qed.

Lemma h1_match_head (d : ascii) (t : str) : d <> "#"%char -> h1_match (d :: t) = None.
Proof.
  intros Hd. unfold h1_match. destruct t as [|c2 t]; [reflexivity|].
  rewrite (ceq_false _ _ Hd). reflexivity.
Qed.

Lemma h_match_head (d : ascii) (t : str) : d <> "#"%char -> h_match (d :: t) = None.
Proof.
  intros Hd. unfold h_match. cbn [span]. rewrite (ceq_false _ _ Hd). reflexivity.
Qed.

Lemma space_not_hash (d : ascii) : is_space d = true -> d <> "#"%char.
Proof. intros H E. subst d. discriminate H. Qed.

(** A line whose stripped text does not start with [#] matches neither
    heading pattern (they are tested on the unstripped line). *)
Lemma headings_of_strip (l : str) (c : ascii) (u : str) :
  strip l = c :: u -> c <> "#"%char -> h1_match l = None /\ h_match l = None.
Proof.
  intros Hs Hc. destruct (strip_head l c u Hs) as [d [t [-> Hd]]].
  assert (Hd' : d <> "#"%char) by (destruct Hd as [Hd | ->]; [now apply space_not_hash | exact Hc]).
  split; [now apply h1_match_head | now apply h_match_head].
Qed.

Lemma image_match_head (s : str) (alt target : str) :
  image_match s = Some (alt, target) -> exists u, s = "!"%char :: "["%char :: u.
Proof.
  unfold image_match. destruct s as [|c1 [|c2 u]]; try discriminate.
  destruct (ceq c1 "!"%char) eqn:E1; [|discriminate].
  destruct (ceq c2 "["%char) eqn:E2; [|discriminate].
  intros _. apply ceq_true in E1, E2. subst. now exists u.
Qed.

(** A standalone image line, outside a code block, is handled by the image
    branch, whatever the title. *)
Lemma image_step md_dir st l rest alt target :
  in_code_block st = false ->
  image_match (strip l) = Some (alt, target) ->
  step md_dir st (l :: rest) = (record_image st (resolve_image md_dir (strip target)), rest).
Proof.
  intros Hc Hi. destruct (image_match_head _ _ _ Hi) as [u Hu].
  destruct (headings_of_strip l "!"%char ("["%char :: u) Hu ltac:(discriminate)) as [H1 _].
  unfold step. rewrite Hu. cbn [is_fence]. rewrite Hc, H1.
  unfold scan_line. rewrite Hu in Hi |- *. rewrite Hi. reflexivity.
Qed.

Lemma image_stopper (l : str) (alt target : str) :
  image_match (strip l) = Some (alt, target) -> stopper l = true.
Proof.
  intros Hi. destruct (image_match_head _ _ _ Hi) as [u Hu].
  apply (stopper_of_head l "!"%char ("["%char :: u) Hu eq_refl).
  unfold _is_block_start. rewrite Hu. rewrite !orb_true_r. reflexivity.
Qed.

Lemma span_suffix_forall {A} (P : A -> Prop) (p : A -> bool) (l : list A) :
  Forall P l -> Forall P (snd (span p l)).
Proof.
  intros H. rewrite (span_split p l) in H. apply Forall_app in H. exact (proj2 H).
Qed.

Lemma step_rest_forall (P : str -> Prop) md_dir st lines :
  Forall P lines -> Forall P (snd (step md_dir st lines)).
Proof.
  intros H. destruct lines as [|l ls]; [exact H|].
  inversion H as [|? ? Hl Hls]; subst.
  unfold step. split_branches_eqn; try exact Hls;
    unfold scan_line; split_branches_eqn; try exact Hls;
    try (match goal with
         | E : span ?p (l :: ls) = (_, ?b) |- Forall P ?b =>
             pose proof (span_suffix_forall P p (l :: ls) H) as Hs; rewrite E in Hs; exact Hs
         end).
Qed.

Definition image_fields (st : scan_state) : bool * option str * list content_image :=
  (first_image_seen st, cover_image st, content_images st).

(** Only the image branch touches [first_image_seen], [cover_image] and
    [content_images]. *)
Lemma step_non_image md_dir st l ls :
  image_match (strip l) = None ->
  image_fields (fst (step md_dir st (l :: ls))) = image_fields st.
Proof.
  intros Hi. unfold step, scan_line, close_fence, add_code_block, open_fence,
    push_code_line, set_title, add_divider, emit_block. rewrite Hi.
  split_branches; reflexivity.
Qed.

Lemma scan_non_image md_dir : forall fuel st lines,
  Forall (fun x => image_match (strip x) = None) lines ->
  image_fields (scan md_dir fuel st lines) = image_fields st.
Proof.
  induction fuel as [|f IH]; intros st lines H; [reflexivity|].
  destruct lines as [|l ls]; [reflexivity|]. cbn [scan].
  pose proof (step_rest_forall _ md_dir st (l :: ls) H) as Hr.
  inversion H as [|? ? Hl _]; subst.
  pose proof (step_non_image md_dir st l ls Hl) as E.
  destruct (step md_dir st (l :: ls)) as [st' r]. simpl in *.
  rewrite IH by exact Hr. exact E.
Qed.

(** Once an image has been seen the cover stays. *)
Lemma step_keeps_cover md_dir st lines :
  first_image_seen st = true ->
  first_image_seen (fst (step md_dir st lines)) = true /\
  cover_image (fst (step md_dir st lines)) = cover_image st.
Proof.
  intros Hs. destruct lines as [|l ls]; [auto|].
  unfold step, scan_line, record_image, close_fence, add_code_block, open_fence,
    push_code_line, set_title, add_divider, emit_block. rewrite Hs.
  split_branches; simpl; auto.
Qed.

Lemma scan_keeps_cover md_dir : forall fuel st lines,
  first_image_seen st = true ->
  cover_image (scan md_dir fuel st lines) = cover_image st.
Proof.
  induction fuel as [|f IH]; intros st lines H; [reflexivity|].
  destruct lines as [|l ls]; [reflexivity|]. cbn [scan].
  pose proof (step_keeps_cover md_dir st (l :: ls) H) as [H1 H2].
  destruct (step md_dir st (l :: ls)) as [st' r]. simpl in *.
  rewrite IH by exact H1. exact H2.
Qed.

(** * Tables *)

Lemma span_forallb_prefix {A} (p : A -> bool) (u v : list A) :
  forallb p u = true -> span p (u ++ v) = (u ++ fst (span p v), snd (span p v)).
Proof.
  induction u as [|x u IH]; simpl; intros H.
  - destruct (span p v); reflexivity.
  - apply andb_true_iff in H as [Hx Hu]. rewrite Hx, (IH Hu). reflexivity.
Qed.

Lemma table_start_iff (s : str) :
  table_start s = true <->
  exists x y z, s = "|"%char :: x :: y ++ "|"%char :: z /\ forallb not_nl (x :: y) = true.
Proof.
  split.
  - destruct s as [|c rest]; [discriminate|]. simpl. intros H.
    apply andb_true_iff in H as [Hc H]. apply ceq_true in Hc. subst c.
    pose proof (span_split not_nl rest) as Hs. pose proof (span_all not_nl rest) as Ha.
    destruct (span not_nl rest) as [pre suf]. simpl in *.
    destruct pre as [|x y]; [discriminate|]. simpl in H.
    apply existsb_exists in H as [q [Hin Hq]]. apply ceq_true in Hq. subst q.
    apply in_split in Hin as [y1 [y2 ->]].
    exists x, y1, (y2 ++ suf). split.
    + rewrite Hs. simpl. now rewrite <- app_assoc.
    + simpl in Ha |- *. apply andb_true_iff in Ha as [Hx Ha]. rewrite Hx.
      rewrite forallb_app in Ha. now apply andb_true_iff in Ha as [Ha _].
  - intros [x [y [z [-> H]]]]. unfold table_start. rewrite ceq_refl.
    change (x :: y ++ "|"%char :: z) with ((x :: y) ++ "|"%char :: z).
    rewrite span_forallb_prefix by exact H. cbn [fst].
    change (tl ((x :: y) ++ fst (span not_nl ("|"%char :: z))))
      with (y ++ fst (span not_nl ("|"%char :: z))).
    assert (E : fst (span not_nl ("|"%char :: z)) = "|"%char :: fst (span not_nl z))
      by (simpl; destruct (span not_nl z); reflexivity).
    rewrite E, existsb_app. simpl. now rewrite orb_true_r.
Qed.

(** A pipe-delimited line, as tested by the loop, strips to a line that
    starts with [|] and passes the table test. *)
Lemma table_line_strip (l : str) :
  table_line l = true ->
  exists u, strip l = "|"%char :: u /\ table_start (strip l) = true.
Proof.
  unfold table_line. intros H. apply table_start_iff in H as [x [y [z [Hl Hn]]]].
  unfold strip. rewrite Hl.
  pose proof (rstrip_app_nonspace ("|"%char :: x :: y) z "|"%char eq_refl) as E.
  cbn [app] in E. rewrite E.
  eexists. split; [reflexivity|].
  apply table_start_iff. exists x, y, (rstrip_ws z). split; [reflexivity | exact Hn].
Qed.

Definition stops (p : str -> bool) (rest : list str) : Prop :=
  match rest with [] => True | r :: _ => p r = false end.

Lemma span_run {A} (p : A -> bool) (u rest : list A) :
  Forall (fun x => p x = true) u ->
  match rest with [] => True | r :: _ => p r = false end ->
  span p (u ++ rest) = (u, rest).
Proof.
  intros Hu Hr. induction Hu as [|x u Hx Hu IH]; simpl.
  - destruct rest as [|r rest]; [reflexivity|]. simpl. now rewrite Hr.
  - rewrite Hx, IH. reflexivity.
Qed.

(** Outside a code block, a maximal run of pipe-delimited lines is handled by
    the table branch: with two lines or more it is stored as a [__table__]
    code block (each line stripped, joined by newlines); otherwise nothing
    is stored. *)
Lemma table_step md_dir st run rest :
  in_code_block st = false ->
  run <> [] ->
  Forall (fun l => table_line l = true) run ->
  stops table_line rest ->
  step md_dir st (run ++ rest)
  = (if 2 <=? length run
     then add_code_block st (lit "__table__") (join [nl] (map strip run))
     else st, rest).
Proof.
  intros Hc Hne Hrun Hstop.
  destruct run as [|l run']; [congruence|].
  inversion Hrun as [|? ? Hl _]; subst.
  destruct (table_line_strip l Hl) as [u [Hs Ht]].
  destruct (headings_of_strip l "|"%char u Hs ltac:(discriminate)) as [H1 H2].
  pose proof (span_run table_line (l :: run') rest Hrun Hstop) as Hspan.
  cbn [app] in Hspan |- *.
  assert (Hf : is_fence ("|"%char :: u) = false) by reflexivity.
  assert (Hsl : scan_line md_dir st l (run' ++ rest)
                = (if 2 <=? length (l :: run')
                   then add_code_block st (lit "__table__") (join [nl] (map strip (l :: run')))
                   else st, rest)).
  { unfold scan_line. rewrite H2, Hspan. rewrite Hs in Ht |- *. rewrite Ht.
    assert (Hi : image_match ("|"%char :: u) = None)
      by (destruct u as [|? [|? ?]]; reflexivity).
    assert (Hd : is_divider ("|"%char :: u) = false) by reflexivity.
    assert (Hq : starts_with (lit "> ") ("|"%char :: u) = false) by reflexivity.
    assert (Hu : ul_start ("|"%char :: u) = false) by (destruct u as [|? ?]; reflexivity).
    assert (Ho : ol_start ("|"%char :: u) = false) by reflexivity.
    rewrite Hi, Hd, Hq, Hu, Ho. destruct (2 <=? _); reflexivity. }
  unfold step. rewrite Hs, Hf, Hc, H1. exact Hsl.
Qed.

(** * Claims *)

(** C1: for every line sequence, every [block_index] stored in
    [content_images], [code_blocks] and [dividers] is at most [total_blocks];
    [total_blocks] is the number of HTML blocks joined into [html] plus the
    number of [code_blocks] entries; and each of the three index lists is
    non-decreasing in encounter order. *)
Theorem block_index_bookkeeping (md_dir : str) (lines : list str) :
  let st := scan md_dir (length lines) init_state lines in
  let d := parse_lines md_dir lines in
  doc_html d = join [nl] (body_lines st) /\
  doc_total_blocks d = length (body_lines st) + length (doc_code_blocks d) /\
  Forall (fun i => i <= doc_total_blocks d) (map img_block_index (doc_content_images d)) /\
  Forall (fun i => i <= doc_total_blocks d) (map cb_block_index (doc_code_blocks d)) /\
  Forall (fun i => i <= doc_total_blocks d) (doc_dividers d) /\
  Sorted le (map img_block_index (doc_content_images d)) /\
  Sorted le (map cb_block_index (doc_code_blocks d)) /\
  Sorted le (doc_dividers d).
Proof.
  intros st d.
  destruct (scan_preserves_inv md_dir (length lines) init_state lines init_inv).
  unfold d, parse_lines, finish. simpl.
  repeat split; assumption.
Qed.

(** C6: when the line sequence is [pre ++ f :: post], [f] an opening fence
    (outside a code block after [pre]) and no line of [post] a fence, the
    lines of [post] are swallowed by the open code block: the document is the
    one of [pre] alone (no HTML, images, dividers, code blocks or index
    change come from [f :: post]). *)
Theorem unterminated_fence_truncates (md_dir : str) (pre : list str) (f : str) (post : list str) :
  in_code_block (scan md_dir (length pre) init_state pre) = false ->
  is_fence (strip f) = true ->
  Forall (fun l => is_fence (strip l) = false) post ->
  parse_lines md_dir (pre ++ f :: post) = parse_lines md_dir pre.
Proof.
  intros Hpre Hf Hpost. unfold parse_lines.
  rewrite (scan_app_stop md_dir f post (fence_stopper f Hf) (length pre) pre init_state (le_n _)).
  set (st0 := scan md_dir (length pre) init_state pre) in *.
  cbn [scan length]. unfold step. rewrite Hf, Hpre. cbn [negb].
  rewrite scan_in_code by (reflexivity || exact Hpost).
  reflexivity.
Qed.

Lemma unterminated_fence_truncates_witness :
  in_code_block (scan (lit "/d") 1 init_state [lit "a"]) = false /\
  is_fence (strip (lit "```py")) = true /\
  Forall (fun l => is_fence (strip l) = false) [lit "b"; lit "# c"] /\
  parse_lines (lit "/d") ([lit "a"] ++ lit "```py" :: [lit "b"; lit "# c"])
  = parse_lines (lit "/d") [lit "a"].
Proof.
  split; [vm_compute; reflexivity|]. split; [vm_compute; reflexivity|].
  split; [repeat constructor|].
  apply unterminated_fence_truncates;
    [vm_compute; reflexivity | vm_compute; reflexivity | repeat constructor].
Defined.

(** C2: outside a code block, a standalone image line never creates a block
    and leaves [block_index] alone; the first one becomes [cover_image] and
    is not put in [content_images], every later one is appended to
    [content_images] with the current [block_index].  For a document whose
    first standalone image line is [l] (no image recorded by the scan of
    the lines before it, which may hold image-shaped lines inside code
    blocks, and [l] not inside a code block) the cover is [l]'s image.  Example: [![a](x.png)\ntext\n![b](y.png)]
    read from directory [/home/u/docs] gives the cover [x.png] and the single
    content image [(y.png, 1)], both resolved against that directory. *)
Theorem first_image_is_cover :
  (forall md_dir st l rest alt target,
     in_code_block st = false ->
     image_match (strip l) = Some (alt, target) ->
     let p := resolve_image md_dir (strip target) in
     let st' := fst (step md_dir st (l :: rest)) in
     snd (step md_dir st (l :: rest)) = rest /\
     block_index st' = block_index st /\
     body_lines st' = body_lines st /\
     first_image_seen st' = true /\
     (first_image_seen st = false ->
        cover_image st' = Some p /\ content_images st' = content_images st) /\
     (first_image_seen st = true ->
        cover_image st' = cover_image st /\
        content_images st' = content_images st ++ [mk_content_image p (block_index st)])) /\
  (forall md_dir pre l post alt target,
     first_image_seen (scan md_dir (length pre) init_state pre) = false ->
     in_code_block (scan md_dir (length pre) init_state pre) = false ->
     image_match (strip l) = Some (alt, target) ->
     doc_cover_image (parse_lines md_dir (pre ++ l :: post))
     = Some (resolve_image md_dir (strip target))) /\
  (let d := parse_markdown (lit "/home/u/docs") (lit "![a](x.png)" ++ [nl] ++ lit "text"
                                                  ++ [nl] ++ lit "![b](y.png)") in
   doc_cover_image d = Some (lit "/home/u/docs/x.png") /\
   doc_content_images d = [mk_content_image (lit "/home/u/docs/y.png") 1]).
Proof.
  split; [|split].
  - intros md_dir st l rest alt target Hc Hi p st'.
    unfold st'. rewrite (image_step md_dir st l rest alt target Hc Hi). simpl.
    unfold record_image. fold p.
    destruct (first_image_seen st); simpl; repeat split; easy.
  - intros md_dir pre l post alt target Hpre Hc Hi.
    unfold parse_lines.
    rewrite (scan_app_stop md_dir l post (image_stopper l alt target Hi) (length pre) pre
               init_state (le_n _)).
    set (st0 := scan md_dir (length pre) init_state pre) in *.
    cbn [scan length]. rewrite (image_step md_dir st0 l post alt target Hc Hi).
    unfold finish. simpl.
    rewrite scan_keeps_cover; unfold record_image; rewrite Hpre; reflexivity.
  - vm_compute. split; reflexivity.
Qed.

Lemma first_image_is_cover_witness :
  let st := init_state in
  in_code_block st = false /\
  image_match (strip (lit "![a](x.png)")) = Some (lit "a", lit "x.png") /\
  cover_image (fst (step (lit "/d") st [lit "![a](x.png)"])) = Some (lit "/d/x.png") /\
  first_image_seen (scan (lit "/d") 3 init_state [lit "```md"; lit "![z](z.png)"; lit "```"]) = false /\
  in_code_block (scan (lit "/d") 3 init_state [lit "```md"; lit "![z](z.png)"; lit "```"]) = false /\
  doc_cover_image (parse_lines (lit "/d")
    ([lit "```md"; lit "![z](z.png)"; lit "```"] ++ lit "![a](x.png)" :: [lit "![b](y.png)"]))
  = Some (lit "/d/x.png").
Proof.
  intros st. split; [reflexivity|]. split; [vm_compute; reflexivity|].
  split.
  { destruct first_image_is_cover as [H _].
    destruct (H (lit "/d") st (lit "![a](x.png)") [] (lit "a") (lit "x.png")
                eq_refl ltac:(vm_compute; reflexivity)) as [_ [_ [_ [_ [Hfirst _]]]]].
    destruct (Hfirst eq_refl) as [Hcov _]. rewrite Hcov. vm_compute. reflexivity. }
  split; [vm_compute; reflexivity|]. split; [vm_compute; reflexivity|].
  destruct first_image_is_cover as [_ [H _]].
  rewrite (H (lit "/d") [lit "```md"; lit "![z](z.png)"; lit "```"] (lit "![a](x.png)")
             [lit "![b](y.png)"] (lit "a") (lit "x.png")
             ltac:(vm_compute; reflexivity) ltac:(vm_compute; reflexivity)
             ltac:(vm_compute; reflexivity)).
  vm_compute. reflexivity.
Defined.

(** C3 (as stated): only the first top-level heading is the title, and every
    later one is emitted as an [<h1>] block advancing the index. *)
Lemma later_h1_dropped_counterexample :
  let d := parse_markdown (lit "/d") (lit "# A" ++ [nl] ++ lit "text" ++ [nl] ++ lit "# B") in
  doc_title d = lit "A" /\ doc_html d = lit "<p>text</p>" /\ doc_total_blocks d = 1.
Proof. vm_compute. repeat split. Qed.

Lemma strip_hash_heading (s : str) :
  existsb (fun c => negb (is_space c)) s = true ->
  exists x, strip ("#"%char :: " "%char :: s) = "#"%char :: " "%char :: x.
Proof.
  intros H. apply existsb_exists in H as [c [Hin Hc]]. apply negb_true_iff in Hc.
  apply in_split in Hin as [a [b ->]].
  rewrite strip_cons_nonspace by reflexivity.
  pose proof (rstrip_app_nonspace (" "%char :: a) b c Hc) as E. cbn [app] in E.
  rewrite E.
  now exists (a ++ c :: rstrip_ws b).
Qed.

(** C3 (corrected): outside a code block, a top-level heading line [# T] is
    consumed as the title [T] (stripped) while [title] is empty, emitting no
    HTML and leaving the index alone; once [title] is set, a later line
    [# T] with a non-blank [T] is dropped: the state is unchanged (no HTML,
    no index change).  For [# A\ntext\n# B] the title is [A], the HTML is
    just [<p>text</p>] and [total_blocks] is 1. *)
Theorem top_level_heading_handling :
  (forall md_dir st l rest g,
     in_code_block st = false -> title st = [] -> h1_match l = Some g ->
     step md_dir st (l :: rest) = (set_title st (strip g), rest)) /\
  (forall md_dir st s rest,
     in_code_block st = false -> title st <> [] ->
     existsb (fun c => negb (is_space c)) s = true ->
     step md_dir st (("#"%char :: " "%char :: s) :: rest) = (st, rest)) /\
  (let d := parse_markdown (lit "/d") (lit "# A" ++ [nl] ++ lit "text" ++ [nl] ++ lit "# B") in
   doc_title d = lit "A" /\ doc_html d = lit "<p>text</p>" /\ doc_total_blocks d = 1).
Proof.
  split; [|split].
  - intros md_dir st l rest g Hc Ht Hh.
    assert (Hl : exists t, l = "#"%char :: t).
    { unfold h1_match in Hh. destruct l as [|c1 [|c2 t]]; try discriminate.
      destruct (ceq c1 "#"%char) eqn:E; [|discriminate].
      apply ceq_true in E. subst. now eexists. }
    destruct Hl as [t ->].
    unfold step. rewrite strip_cons_nonspace by reflexivity.
    assert (Hf : is_fence ("#"%char :: rstrip_ws t) = false) by reflexivity.
    rewrite Hf, Hc, Hh, Ht. reflexivity.
  - intros md_dir st s rest Hc Ht Hs.
    destruct (strip_hash_heading s Hs) as [x Hx].
    assert (Hf : is_fence ("#"%char :: " "%char :: x) = false) by reflexivity.
    assert (Hb : _is_block_start ("#"%char :: " "%char :: s) = true)
      by (unfold _is_block_start; rewrite Hx; reflexivity).
    assert (Hp : para_line ("#"%char :: " "%char :: s) = false)
      by (apply para_line_stop; exact Hb).
    assert (Hsl : scan_line md_dir st ("#"%char :: " "%char :: s) rest = (st, rest)).
    { unfold scan_line. rewrite Hx. cbn [span]. rewrite Hp. reflexivity. }
    unfold step. rewrite Hx, Hf, Hc. cbv beta iota.
    destruct (h1_match _); [destruct (title st); [congruence|]|]; exact Hsl.
  - vm_compute. repeat split.
Qed.

Lemma top_level_heading_handling_witness :
  let st1 := set_title init_state (lit "A") in
  step (lit "/d") init_state [lit "# A"] = (set_title init_state (lit "A"), []) /\
  title st1 <> [] /\
  step (lit "/d") st1 [lit "# B"] = (st1, []).
Proof.
  intros st1. split.
  - destruct top_level_heading_handling as [H _].
    apply (H (lit "/d") init_state (lit "# A") [] (lit "A") eq_refl eq_refl).
    vm_compute. reflexivity.
  - split; [discriminate|].
    destruct top_level_heading_handling as [_ [H _]].
    apply (H (lit "/d") st1 (lit "B") [] eq_refl ltac:(discriminate) eq_refl).
Defined.

(** C4 (as stated): a pipe-delimited line not followed by a separator row is
    reclassified as a paragraph and gives no [code_blocks] entry.  Two pipe
    lines without separator row give a table entry, and the single line
    [| A | B |] gives no [<p>] block. *)
Lemma table_without_separator_counterexample :
  doc_code_blocks (parse_markdown (lit "/d") (lit "| A |" ++ [nl] ++ lit "| B |"))
  = [mk_code_block (lit "__table__") (lit "| A |" ++ [nl] ++ lit "| B |") 0] /\
  doc_html (parse_markdown (lit "/d") (lit "| A | B |")) = [].
Proof. vm_compute. split; reflexivity. Qed.

(** C4 (corrected): a maximal run of pipe-delimited lines (outside a code
    block) forms a table as soon as it has two lines or more, with no check
    for a separator row; a run of a single pipe-delimited line creates no
    [code_blocks] entry.  [| A |\n| B |] gives a [__table__] entry and
    [| A | B |] gives none. *)
Theorem short_table_run_not_stored :
  (forall md_dir st run rest,
     in_code_block st = false -> run <> [] ->
     Forall (fun l => table_line l = true) run -> stops table_line rest ->
     code_blocks (fst (step md_dir st (run ++ rest)))
     = if 2 <=? length run
       then code_blocks st ++ [mk_code_block (lit "__table__") (join [nl] (map strip run))
                                 (block_index st)]
       else code_blocks st) /\
  doc_code_blocks (parse_markdown (lit "/d") (lit "| A |" ++ [nl] ++ lit "| B |"))
  = [mk_code_block (lit "__table__") (lit "| A |" ++ [nl] ++ lit "| B |") 0] /\
  doc_code_blocks (parse_markdown (lit "/d") (lit "| A | B |")) = [].
Proof.
  split; [|split].
  - intros md_dir st run rest Hc Hne Hrun Hstop.
    rewrite (table_step md_dir st run rest Hc Hne Hrun Hstop).
    destruct (2 <=? length run); reflexivity.
  - vm_compute. reflexivity.
  - vm_compute. reflexivity.
Qed.

Lemma short_table_run_not_stored_witness :
  code_blocks (fst (step (lit "/d") init_state ([lit "| A | B |"] ++ [lit "text"]))) = [].
Proof.
  destruct short_table_run_not_stored as [H _].
  rewrite (H (lit "/d") init_state [lit "| A | B |"] [lit "text"] eq_refl
             ltac:(discriminate) ltac:(repeat constructor) ltac:(vm_compute; reflexivity)).
  reflexivity.
Defined.

(** C5 (as stated): the table entry holds the captured lines unmodified.
    Indented table lines are stored stripped. *)
Lemma table_lines_stripped_counterexample :
  doc_code_blocks (parse_markdown (lit "/d") (lit "  | A | B |" ++ [nl] ++ lit "  |---|---|"))
  = [mk_code_block (lit "__table__") (lit "| A | B |" ++ [nl] ++ lit "|---|---|") 0] /\
  lit "| A | B |" ++ [nl] ++ lit "|---|---|" <> lit "  | A | B |" ++ [nl] ++ lit "  |---|---|".
Proof. split; [vm_compute; reflexivity | discriminate]. Qed.

(** C5 (corrected): outside a code block, a maximal run of at least two
    pipe-delimited lines (a separator row is not required) gives exactly one
    [code_blocks] entry, with language [__table__], code the lines of the
    run each stripped of surrounding whitespace and joined by newlines,
    recorded at the current [block_index]; the index then advances by one
    and no HTML is emitted.  [| A | B |\n|---|---|\n| 1 | 2 |] gives one such
    entry holding the three lines as written. *)
Theorem table_run_stored :
  (forall md_dir st run rest,
     in_code_block st = false -> 2 <= length run ->
     Forall (fun l => table_line l = true) run -> stops table_line rest ->
     let (st', rest') := step md_dir st (run ++ rest) in
     rest' = rest /\
     code_blocks st' = code_blocks st ++ [mk_code_block (lit "__table__")
                                            (join [nl] (map strip run)) (block_index st)] /\
     block_index st' = S (block_index st) /\
     body_lines st' = body_lines st) /\
  (let text := lit "| A | B |" ++ [nl] ++ lit "|---|---|" ++ [nl] ++ lit "| 1 | 2 |" in
   doc_code_blocks (parse_markdown (lit "/d") text) = [mk_code_block (lit "__table__") text 0] /\
   doc_total_blocks (parse_markdown (lit "/d") text) = 1).
Proof.
  split.
  - intros md_dir st run rest Hc Hlen Hrun Hstop.
    assert (Hne : run <> []) by (intros ->; simpl in Hlen; lia).
    rewrite (table_step md_dir st run rest Hc Hne Hrun Hstop).
    apply Nat.leb_le in Hlen. rewrite Hlen. repeat split.
  - vm_compute. split; reflexivity.
Qed.

Lemma table_run_stored_witness :
  let run := [lit "| A |"; lit "|---|"] in
  code_blocks (fst (step (lit "/d") init_state (run ++ [])))
  = [mk_code_block (lit "__table__") (lit "| A |" ++ [nl] ++ lit "|---|") 0].
Proof.
  intros run. destruct table_run_stored as [H _].
  specialize (H (lit "/d") init_state run [] eq_refl ltac:(simpl; lia)
                ltac:(repeat constructor) I).
  destruct (step (lit "/d") init_state (run ++ [])) as [st' rest'].
  destruct H as [_ [Hcb _]]. cbn [fst]. rewrite Hcb. reflexivity.
Defined.

(** C10: every [code_blocks] entry has a non-empty language; a fenced block
    whose opening fence has no language tag (or one that strips to nothing)
    is stored with the language [text]. *)
Definition langs_ok (st : scan_state) : Prop :=
  Forall (fun cb => cb_language cb <> []) (code_blocks st).

Lemma add_code_block_langs st lang code :
  langs_ok st -> lang <> [] -> langs_ok (add_code_block st lang code).
Proof. intros H Hl. apply Forall_app. split; [exact H | now constructor]. Qed.

Lemma step_langs md_dir st lines : langs_ok st -> langs_ok (fst (step md_dir st lines)).
Proof.
  intros H. destruct lines as [|l ls]; [exact H|].
  unfold langs_ok in *.
  unfold step, scan_line, close_fence, open_fence, push_code_line, set_title, record_image,
    add_divider, emit_block, add_code_block.
  split_branches; simpl; try exact H;
    apply Forall_app; (split; [exact H | constructor; [discriminate | constructor]]).
Qed.

Lemma scan_langs md_dir : forall fuel st lines, langs_ok st -> langs_ok (scan md_dir fuel st lines).
Proof.
  induction fuel as [|f IH]; intros st lines H; [exact H|].
  destruct lines as [|l ls]; [exact H|]. cbn [scan].
  pose proof (step_langs md_dir st (l :: ls) H) as H'.
  destruct (step md_dir st (l :: ls)). apply IH. exact H'.
Qed.

Theorem code_block_language_nonempty :
  (forall md_dir lines,
     Forall (fun cb => cb_language cb <> []) (doc_code_blocks (parse_lines md_dir lines))) /\
  (forall md_dir st l rest,
     in_code_block st = true -> code_lang st = [] -> is_fence (strip l) = true ->
     strip (join [nl] (code_content st)) <> [] ->
     code_blocks (fst (step md_dir st (l :: rest)))
     = code_blocks st ++ [mk_code_block (lit "text") (join [nl] (code_content st)) (block_index st)]) /\
  doc_code_blocks (parse_markdown (lit "/d") (lit "```" ++ [nl] ++ lit "x" ++ [nl] ++ lit "```"))
  = [mk_code_block (lit "text") (lit "x") 0].
Proof.
  split; [|split].
  - intros md_dir lines. apply scan_langs. constructor.
  - intros md_dir st l rest Hc Hl Hf Hne. unfold step. rewrite Hf, Hc. simpl.
    unfold close_fence. destruct (strip (join [nl] (code_content st))); [congruence|].
    rewrite Hl. reflexivity.
  - vm_compute. reflexivity.
Qed.

Lemma code_block_language_nonempty_witness :
  let st := push_code_line (open_fence init_state []) (lit "x") in
  code_blocks (fst (step (lit "/d") st [lit "```"])) = [mk_code_block (lit "text") (lit "x") 0].
Proof.
  intros st. destruct code_block_language_nonempty as [_ [H _]].
  rewrite (H (lit "/d") st (lit "```") [] eq_refl eq_refl eq_refl ltac:(discriminate)).
  reflexivity.
Defined.

(** C7 (as stated): the frontmatter is removed up through the next marker
    line, and a text whose first line is not the marker line is unchanged.
    The source searches the substring [---] anywhere after position 3 and
    only tests that the text starts with [---]. *)
Lemma strip_frontmatter_substring_counterexample :
  strip_frontmatter (lit "---" ++ [nl] ++ lit "key: a---b" ++ [nl] ++ lit "---" ++ [nl] ++ lit "body")
  = lit "b" ++ [nl] ++ lit "---" ++ [nl] ++ lit "body" /\
  strip_frontmatter (lit "------" ++ [nl] ++ lit "x") = lit "x".
Proof. split; vm_compute; reflexivity. Qed.

Definition occurs (pat s : str) : Prop := exists u v, s = u ++ pat ++ v.

Lemma occurs_cons (pat s : str) (c : ascii) : occurs pat s -> occurs pat (c :: s).
Proof. intros [u [v ->]]. exists (c :: u), v. reflexivity. Qed.

Lemma find_from_none (pat : str) (Hp : pat <> []) :
  forall s i, ~ occurs pat s -> find_from pat s i = None.
Proof.
  induction s as [|c t IH]; intros i Hn; simpl.
  - destruct pat; [congruence | reflexivity].
  - destruct (starts_with pat (c :: t)) eqn:E.
    + exfalso. apply Hn. apply starts_with_spec in E as [w Hw]. exists [], w. exact Hw.
    + apply IH. intros Ho. apply Hn. now apply occurs_cons.
Qed.

Lemma prefix_of_app (x y p w : str) :
  x ++ y = p ++ w -> length p <= length x -> x = p ++ skipn (length p) x.
Proof.
  intros E Hl.
  assert (Hf : firstn (length p) x = p).
  { pose proof (f_equal (firstn (length p)) E) as E'.
    rewrite !firstn_app, Nat.sub_diag, firstn_all in E'.
    replace (length p - length x) with 0 in E' by lia.
    simpl in E'. now rewrite !app_nil_r in E'. }
  rewrite <- (firstn_skipn (length p) x) at 1. now rewrite Hf.
Qed.

Lemma find_from_first :
  forall a b i, ~ occurs (lit "---") (a ++ lit "--") ->
  find_from (lit "---") (a ++ lit "---" ++ b) i = Some (i + length a).
Proof.
  induction a as [|c a IH]; intros b i Hn.
  - simpl. rewrite Nat.add_0_r. reflexivity.
  - cbn [app find_from].
    destruct (starts_with (lit "---") (c :: a ++ lit "---" ++ b)) eqn:E.
    + exfalso. apply starts_with_spec in E as [w Hw]. apply Hn.
      assert (Hx : (c :: a ++ lit "--") ++ "-"%char :: b = lit "---" ++ w)
        by (rewrite <- Hw; simpl; rewrite <- app_assoc; reflexivity).
      apply prefix_of_app in Hx; [|simpl; rewrite length_app; simpl; lia].
      exists [], (skipn 3 (c :: a ++ lit "--")). exact Hx.
    + rewrite IH; [f_equal; simpl; lia|]. intros Ho. apply Hn. now apply occurs_cons.
Qed.

(** C7 (corrected): [strip_frontmatter] never fails.  A text that does not
    start with the three characters [---] is returned unchanged.  A text
    [--- a --- b], where [---] occurs in [a] only as the closing one (no
    occurrence in [a ++ --]), becomes [b] with its leading newlines removed:
    the closing marker is the first later occurrence of the substring [---],
    wherever it is.  A text starting with [---] with no later occurrence of
    [---] is returned unchanged. *)
Theorem strip_frontmatter_spec :
  (forall text, starts_with (lit "---") text = false -> strip_frontmatter text = text) /\
  (forall a b, ~ occurs (lit "---") (a ++ lit "--") ->
     strip_frontmatter (lit "---" ++ a ++ lit "---" ++ b) = lstrip_nl b) /\
  (forall t, ~ occurs (lit "---") t -> strip_frontmatter (lit "---" ++ t) = lit "---" ++ t).
Proof.
  split; [|split].
  - intros text H. unfold strip_frontmatter. now rewrite H.
  - intros a b Hn. unfold strip_frontmatter.
    rewrite starts_with_app by reflexivity.
    change (skipn 3 (lit "---" ++ a ++ lit "---" ++ b)) with (a ++ lit "---" ++ b).
    rewrite find_from_first by exact Hn.
    replace (3 + length a + 3) with (length (lit "---" ++ a ++ lit "---")) by
      (rewrite !length_app; simpl; lia).
    rewrite !app_assoc, skipn_app, skipn_all, Nat.sub_diag, skipn_O. reflexivity.
  - intros t Hn. unfold strip_frontmatter.
    rewrite starts_with_app by reflexivity.
    change (skipn 3 (lit "---" ++ t)) with t.
    rewrite find_from_none by (discriminate || exact Hn). reflexivity.
Qed.

Lemma strip_frontmatter_spec_witness :
  strip_frontmatter (lit "---" ++ (lit "k: v" ++ [nl]) ++ lit "---" ++ ([nl] ++ lit "body"))
  = lit "body".
Proof.
  destruct strip_frontmatter_spec as [_ [H _]].
  rewrite (H (lit "k: v" ++ [nl]) ([nl] ++ lit "body")).
  - reflexivity.
  - intros [u [v Hv]].
    do 8 (destruct u as [|? u]; cbv [lit nl list_ascii_of_string app] in Hv; try congruence; injection Hv as _ Hv).
Defined.

(** C8 (as stated): formatting twice gives the same text as formatting once.
    [**a* b*] is formatted to [<em>*a</em> b*], which formats again to
    [<em><em>a</em> b</em>]. *)
Lemma inline_format_not_idempotent_counterexample :
  inline_format (lit "**a* b*") = lit "<em>*a</em> b*" /\
  inline_format (inline_format (lit "**a* b*")) = lit "<em><em>a</em> b</em>" /\
  inline_format (inline_format (lit "**a* b*")) <> inline_format (lit "**a* b*").
Proof.
  split; [|split].
  - vm_compute. reflexivity.
  - vm_compute. reflexivity.
  - vm_compute. discriminate.
Qed.

(** The characters that can start a match of one of the six patterns of
    [inline_format]. *)
Definition markup_char (c : ascii) : bool :=
  ceq c "*"%char || ceq c "~"%char || ceq c "`"%char || ceq c "["%char.

Definition no_markup (s : str) : bool := forallb (fun c => negb (markup_char c)) s.

Lemma sub_fuel_id (m : matcher) (good : ascii -> bool)
  (Hm : forall c t, good c = true -> m (c :: t) = None) :
  forall f s, forallb good s = true -> sub_fuel m f s = s.
Proof.
  induction f as [|f IH]; intros s Hs; [reflexivity|].
  destruct s as [|c t]; [reflexivity|].
  simpl in Hs. apply andb_prop in Hs as [Hc Ht].
  cbn [sub_fuel]. rewrite (Hm c t Hc). f_equal. now apply IH.
Qed.

Lemma re_sub_id (m : matcher) (good : ascii -> bool)
  (Hm : forall c t, good c = true -> m (c :: t) = None) :
  forall s, forallb good s = true -> re_sub m s = s.
Proof. intros s Hs. unfold re_sub. now apply (sub_fuel_id m good). Qed.

Lemma delimited_head_none (x : ascii) (d o cl : str) (c : ascii) (t : str) :
  ceq x c = false -> delimited (x :: d) o cl (c :: t) = None.
Proof. intros H. unfold delimited. cbn [starts_with]. now rewrite H. Qed.

Lemma markup_free_chars (c : ascii) :
  negb (markup_char c) = true ->
  ceq "*"%char c = false /\ ceq "~"%char c = false /\
  ceq "`"%char c = false /\ ceq "["%char c = false.
Proof.
  unfold markup_char, ceq. rewrite !(Ascii.eqb_sym _ c).
  destruct (Ascii.eqb c "*"%char), (Ascii.eqb c "~"%char),
           (Ascii.eqb c "`"%char), (Ascii.eqb c "["%char);
    simpl; intros H; try discriminate; auto.
Qed.

(** C8 (corrected): [inline_format] is not idempotent in general, but it
    returns unchanged every text holding none of the characters [*], [~],
    [`] and [[]; so a second pass changes nothing whenever the output of the
    first holds none of them.  For instance [**a**] formats to
    [<strong>a</strong>], which formats to itself. *)
Theorem inline_format_markup_free :
  (forall s, no_markup s = true -> inline_format s = s) /\
  (forall s, no_markup (inline_format s) = true ->
     inline_format (inline_format s) = inline_format s) /\
  inline_format (lit "**a**") = lit "<strong>a</strong>" /\
  inline_format (inline_format (lit "**a**")) = inline_format (lit "**a**").
Proof.
  assert (Hid : forall s, no_markup s = true -> inline_format s = s).
  { intros s Hs. unfold no_markup in Hs.
    set (good := fun c => negb (markup_char c)) in Hs.
    assert (H1 : forall c t, good c = true ->
              delimited (lit "***") (lit "<strong><em>") (lit "</em></strong>") (c :: t) = None).
    { intros c t Hc. apply markup_free_chars in Hc as (Hx & _).
      now apply (delimited_head_none "*"%char (lit "**")). }
    assert (H2 : forall c t, good c = true ->
              delimited (lit "**") (lit "<strong>") (lit "</strong>") (c :: t) = None).
    { intros c t Hc. apply markup_free_chars in Hc as (Hx & _).
      now apply (delimited_head_none "*"%char (lit "*")). }
    assert (H3 : forall c t, good c = true ->
              delimited (lit "*") (lit "<em>") (lit "</em>") (c :: t) = None).
    { intros c t Hc. apply markup_free_chars in Hc as (Hx & _).
      now apply (delimited_head_none "*"%char []). }
    assert (H4 : forall c t, good c = true ->
              delimited (lit "~~") (lit "<del>") (lit "</del>") (c :: t) = None).
    { intros c t Hc. apply markup_free_chars in Hc as (_ & Hx & _).
      now apply (delimited_head_none "~"%char (lit "~")). }
    assert (H5 : forall c t, good c = true -> inline_code (c :: t) = None).
    { intros c t Hc. apply markup_free_chars in Hc as (_ & _ & Hx & _).
      unfold inline_code. unfold ceq in *. rewrite Ascii.eqb_sym in Hx. now rewrite Hx. }
    assert (H6 : forall c t, good c = true -> link (c :: t) = None).
    { intros c t Hc. apply markup_free_chars in Hc as (_ & _ & _ & Hx).
      unfold link. unfold ceq in *. rewrite Ascii.eqb_sym in Hx. now rewrite Hx. }
    unfold inline_format.
    rewrite (re_sub_id _ good H1 s Hs), (re_sub_id _ good H2 s Hs), (re_sub_id _ good H3 s Hs),
      (re_sub_id _ good H4 s Hs), (re_sub_id _ good H5 s Hs), (re_sub_id _ good H6 s Hs).
    reflexivity. }
  split; [exact Hid|split; [|split]].
  - intros s Hs. now apply Hid.
  - vm_compute. reflexivity.
  - vm_compute. reflexivity.
Qed.

Lemma inline_format_markup_free_witness :
  no_markup (lit "<strong>a</strong>") = true /\
  inline_format (lit "<strong>a</strong>") = lit "<strong>a</strong>".
Proof.
  split; [reflexivity|].
  destruct inline_format_markup_free as [H _].
  apply H. reflexivity.
Defined.

(** C9 (as stated): a path carrying a URL scheme is recorded unchanged.  The
    target [ftp://h/f.png] is joined to the document directory and
    normalised. *)
Lemma ftp_image_resolved_counterexample :
  doc_cover_image (parse_markdown (lit "/home/u/docs") (lit "![f](ftp://h/f.png)"))
  = Some (lit "/home/u/docs/ftp:/h/f.png") /\
  lit "/home/u/docs/ftp:/h/f.png" <> lit "ftp://h/f.png".
Proof. split; [vm_compute; reflexivity | discriminate]. Qed.

(** C9 (corrected): for a standalone image line outside a code block, the
    recorded path (as [cover_image] for the first image, in [content_images]
    afterwards) is the link target [p] stripped of surrounding whitespace,
    unchanged when [p] is absolute (starts with [/]) or starts with [http],
    and [normpath (join md_dir p)] otherwise, URLs of other schemes
    included. *)
Theorem image_path_resolution :
  (forall md_dir st l rest alt target,
     in_code_block st = false ->
     image_match (strip l) = Some (alt, target) ->
     let p := strip target in
     let q := if isabs p || starts_with (lit "http") p then p
              else normpath (path_join md_dir p) in
     let st' := fst (step md_dir st (l :: rest)) in
     (first_image_seen st = false -> cover_image st' = Some q) /\
     (first_image_seen st = true ->
        content_images st' = content_images st ++ [mk_content_image q (block_index st)])) /\
  doc_cover_image (parse_markdown (lit "/home/u/docs") (lit "![f](https://h/f.png)"))
  = Some (lit "https://h/f.png") /\
  doc_cover_image (parse_markdown (lit "/home/u/docs") (lit "![f](/srv/f.png)"))
  = Some (lit "/srv/f.png") /\
  doc_cover_image (parse_markdown (lit "/home/u/docs") (lit "![f]( img/../f.png )"))
  = Some (lit "/home/u/docs/f.png").
Proof.
  split; [|split; [|split]].
  - intros md_dir st l rest alt target Hc Hi p q st'.
    subst st'. rewrite (image_step md_dir st l rest alt target Hc Hi). cbn [fst].
    assert (Hq : resolve_image md_dir p = q).
    { subst q. unfold resolve_image.
      destruct (isabs p), (starts_with (lit "http") p); reflexivity. }
    subst p. rewrite Hq. unfold record_image.
    split; intros Hf; rewrite Hf; reflexivity.
  - vm_compute. reflexivity.
  - vm_compute. reflexivity.
  - vm_compute. reflexivity.
Qed.

Lemma image_path_resolution_witness :
  cover_image (fst (step (lit "/d") init_state [lit "![a](x.png)"]))
  = Some (lit "/d/x.png").
Proof.
  destruct image_path_resolution as [H _].
  destruct (H (lit "/d") init_state (lit "![a](x.png)") [] (lit "a") (lit "x.png")
              eq_refl ltac:(vm_compute; reflexivity)) as [Hcov _].
  rewrite (Hcov eq_refl). vm_compute. reflexivity.
Defined.

(** * Further properties of the scanner *)

(** ** Line shapes *)

Lemma h1_match_shape (l g : str) :
  h1_match l = Some g -> exists t, l = "#"%char :: " "%char :: t.
Proof.
  unfold h1_match. destruct l as [|c1 [|c2 t]]; try discriminate.
  destruct (ceq c1 "#"%char) eqn:E1, (ceq c2 " "%char) eqn:E2; try discriminate.
  intros _. apply ceq_true in E1, E2. subst. now exists t.
Qed.

Lemma forallb_ceq_repeat (m : ascii) (d : str) :
  forallb (fun x => ceq x m) d = true -> d = repeat m (length d).
Proof.
  induction d as [|x d IH]; simpl; [reflexivity|].
  intros H. apply andb_true_iff in H as [Hx Hd]. apply ceq_true in Hx. subst.
  now rewrite <- IH.
Qed.

Lemma h_match_shape (l : str) (n : nat) (g : str) :
  h_match l = Some (n, g) ->
  2 <= n <= 6 /\ exists t, l = repeat "#"%char n ++ " "%char :: t.
Proof.
  unfold h_match. pose proof (span_split (fun x => ceq x "#"%char) l) as Hs.
  pose proof (span_all (fun x => ceq x "#"%char) l) as Ha.
  destruct (span (fun x => ceq x "#"%char) l) as [hs r]. cbn [fst snd] in Hs, Ha.
  destruct ((2 <=? length hs) && (length hs <=? 6)) eqn:Hl; [|discriminate].
  apply andb_true_iff in Hl as [H1 H2]. apply Nat.leb_le in H1, H2.
  destruct r as [|c rest]; [discriminate|].
  destruct (ceq c " "%char) eqn:Hc; [|discriminate]. apply ceq_true in Hc. subst c.
  destruct (span not_nl rest) as [g' r'].
  intros H. assert (Hn : n = length hs).
  { destruct g'; [discriminate|].
    destruct r' as [|c' [|? ?]]; [congruence | destruct (ceq c' nl); congruence | discriminate]. }
  subst n. split; [lia|]. exists rest. rewrite Hs. now rewrite (forallb_ceq_repeat _ _ Ha) at 1.
Qed.

Lemma rule_of_head (m : ascii) (s : str) :
  rule_of m s = true -> exists u, s = m :: m :: m :: u.
Proof.
  unfold rule_of. pose proof (span_split (fun x => ceq x m) s) as Hs.
  pose proof (span_all (fun x => ceq x m) s) as Ha.
  destruct (span (fun x => ceq x m) s) as [d r]. cbn [fst snd] in Hs, Ha.
  intros H. apply andb_true_iff in H as [Hl _]. apply Nat.leb_le in Hl.
  destruct d as [|a [|b [|c d]]]; simpl in Hl; try lia.
  simpl in Ha. repeat rewrite andb_true_iff in Ha. destruct Ha as [Ha [Hb [Hc _]]].
  apply ceq_true in Ha, Hb, Hc. subst a b c. exists (d ++ r). exact Hs.
Qed.

Lemma divider_head (s : str) :
  is_divider s = true ->
  exists m u, s = m :: m :: m :: u /\ (m = "-"%char \/ m = "*"%char).
Proof.
  unfold is_divider. intros H. apply orb_true_iff in H as [H | H];
    apply rule_of_head in H as [u ->]; eauto.
Qed.

(** ** Branches reached by single lines *)

(** A blank line outside a code block changes nothing. *)
Lemma blank_step md_dir st l rest :
  in_code_block st = false -> strip l = [] -> step md_dir st (l :: rest) = (st, rest).
Proof.
  intros Hc Hs. unfold step. rewrite Hs. cbn [is_fence starts_with lit].
  simpl (list_ascii_of_string _). cbn [starts_with]. rewrite Hc.
  assert (H1 : h1_match l = None).
  { destruct (h1_match l) as [g|] eqn:E; [|reflexivity].
    apply h1_match_shape in E as [t ->].
    rewrite strip_cons_nonspace in Hs by reflexivity. discriminate. }
  rewrite H1. unfold scan_line. rewrite Hs. reflexivity.
Qed.

Lemma blank_scan md_dir : forall lines st,
  in_code_block st = false -> Forall (fun l => strip l = []) lines ->
  scan md_dir (length lines) st lines = st.
Proof.
  induction lines as [|l ls IH]; intros st Hc Hb; [reflexivity|].
  inversion Hb as [|? ? Hl Hls]; subst.
  cbn [scan length]. rewrite (blank_step md_dir st l ls Hc Hl). now apply IH.
Qed.

Lemma strip_all_space (s : str) : forallb is_space s = true -> strip s = [].
Proof.
  intros H. unfold strip.
  assert (E : lstrip_ws s = []).
  { induction s as [|c t IH]; [reflexivity|]. simpl in H |- *.
    apply andb_true_iff in H as [Hc Ht]. rewrite Hc. now apply IH. }
  now rewrite E.
Qed.

Lemma split_on_forall (P : ascii -> bool) (sep : ascii) : forall s,
  forallb P s = true -> Forall (fun x => forallb P x = true) (split_on sep s).
Proof.
  induction s as [|c t IH]; simpl; intros H.
  - repeat constructor.
  - apply andb_true_iff in H as [Hc Ht]. specialize (IH Ht).
    destruct (ceq c sep); [constructor; [reflexivity | exact IH]|].
    destruct (split_on sep t) as [|x r]; [repeat constructor; simpl; now rewrite Hc|].
    inversion IH as [|? ? Hx Hr]; subst. constructor; [simpl; now rewrite Hc, Hx | exact Hr].
Qed.

Lemma divider_step md_dir st l rest :
  in_code_block st = false -> is_divider (strip l) = true ->
  step md_dir st (l :: rest) = (add_divider st, rest).
Proof.
  intros Hc Hd. destruct (divider_head _ Hd) as [m [u [Hs Hm]]].
  destruct (headings_of_strip l m (m :: m :: u) Hs
              ltac:(destruct Hm as [-> | ->]; discriminate)) as [H1 _].
  unfold step. rewrite Hs.
  assert (Hf : is_fence (m :: m :: m :: u) = false) by (destruct Hm as [-> | ->]; reflexivity).
  rewrite Hf, Hc, H1. unfold scan_line. rewrite Hs in Hd |- *.
  assert (Hi : image_match (m :: m :: m :: u) = None) by (destruct Hm as [-> | ->]; reflexivity).
  rewrite Hi, Hd. reflexivity.
Qed.

Lemma heading_step md_dir st l rest n g :
  in_code_block st = false -> h_match l = Some (n, g) ->
  step md_dir st (l :: rest)
  = (emit_block st (tag (lit "h" ++ [digit_of n]) (inline_format (strip g))), rest).
Proof.
  intros Hc Hh. destruct (h_match_shape l n g Hh) as [Hn [t Hl]].
  destruct n as [|[|n]]; [lia | lia|].
  assert (Hs : strip l = "#"%char :: "#"%char :: rstrip_ws (repeat "#"%char n ++ " "%char :: t)).
  { rewrite Hl. cbn [repeat app]. rewrite strip_cons_nonspace by reflexivity.
    pose proof (rstrip_app_nonspace [] (repeat "#"%char n ++ " "%char :: t) "#"%char eq_refl) as E.
    cbn [app] in E. now rewrite E. }
  assert (H1 : h1_match l = None) by (rewrite Hl; reflexivity).
  unfold step. rewrite Hs. cbn [is_fence]. simpl (starts_with (lit "```") _).
  rewrite Hc, H1. unfold scan_line. rewrite Hs, Hh. reflexivity.
Qed.

Lemma broken_image_step md_dir st l rest :
  in_code_block st = false -> starts_with (lit "![") (strip l) = true ->
  image_match (strip l) = None -> step md_dir st (l :: rest) = (st, rest).
Proof.
  intros Hc Hb Hi. apply starts_with_spec in Hb as [u Hs]. cbn [lit list_ascii_of_string app] in Hs.
  destruct (headings_of_strip l "!"%char ("["%char :: u) Hs ltac:(discriminate)) as [H1 H2].
  assert (Hp : para_line l = false).
  { apply para_line_stop. unfold _is_block_start. rewrite Hs. rewrite !orb_true_r. reflexivity. }
  unfold step. rewrite Hs. cbn [is_fence]. simpl (starts_with (lit "```") _).
  rewrite Hc, H1. unfold scan_line. rewrite Hs in Hi |- *. rewrite Hi, H2.
  simpl (span para_line _). rewrite Hp. reflexivity.
Qed.

(** ** Branches reached by runs of lines *)

Lemma quote_step md_dir st run rest :
  in_code_block st = false -> run <> [] ->
  Forall (fun l => quote_line l = true) run -> stops quote_line rest ->
  step md_dir st (run ++ rest)
  = (emit_block st (tag (lit "blockquote")
       (inline_format (join (lit " ") (map (fun l => skipn 2 (strip l)) run)))), rest).
Proof.
  intros Hc Hne Hrun Hstop. destruct run as [|l run']; [congruence|].
  inversion Hrun as [|? ? Hl _]; subst.
  pose proof Hl as Hq. unfold quote_line in Hl.
  apply starts_with_spec in Hl as [u Hs]. cbn [lit list_ascii_of_string app] in Hs.
  destruct (headings_of_strip l ">"%char (" "%char :: u) Hs ltac:(discriminate)) as [H1 H2].
  pose proof (span_run quote_line (l :: run') rest Hrun Hstop) as Hspan.
  cbn [app] in Hspan |- *.
  unfold step. rewrite Hs. cbn [is_fence]. simpl (starts_with (lit "```") _).
  rewrite Hc, H1. unfold scan_line. rewrite Hs, H2.
  simpl (image_match _). simpl (is_divider _). simpl (starts_with (lit "> ") _).
  rewrite Hspan. reflexivity.
Qed.

Lemma ul_step md_dir st l run rest :
  in_code_block st = false -> ul_start (strip l) = true ->
  Forall (fun x => ul_line x = true) run -> stops ul_line rest ->
  step md_dir st (l :: run ++ rest)
  = (emit_block st (tag (lit "ul")
       (concat (map (fun x => tag (lit "li") (inline_format (ul_item x))) (l :: run)))), rest).
Proof.
  intros Hc Hu Hrun Hstop.
  assert (Hrun' : Forall (fun x => ul_line x = true) (l :: run))
    by (constructor; [now apply ul_line_of_strip | exact Hrun]).
  pose proof (span_run ul_line (l :: run) rest Hrun' Hstop) as Hspan. cbn [app] in Hspan.
  destruct (strip l) as [|c [|c' u]] eqn:Hs; try discriminate.
  assert (Hc' : c' = " "%char)
    by (unfold ul_start in Hu; apply andb_true_iff in Hu as [_ H]; now apply ceq_true).
  subst c'.
  assert (Hm : c = "-"%char \/ c = "*"%char \/ c = "+"%char).
  { unfold ul_start in Hu. apply andb_true_iff in Hu as [H _].
    repeat rewrite orb_true_iff in H. destruct H as [[H | H] | H]; apply ceq_true in H; auto. }
  destruct (headings_of_strip l c _ Hs
              ltac:(destruct Hm as [-> | [-> | ->]]; discriminate)) as [H1 H2].
  unfold step. rewrite Hs.
  destruct Hm as [-> | [-> | ->]];
    simpl (is_fence _); rewrite Hc, H1; unfold scan_line; rewrite Hs, H2;
    simpl (image_match _); simpl (is_divider _); simpl (starts_with (lit "> ") _);
    simpl (ul_start _); rewrite Hspan; reflexivity.
Qed.

Lemma ceq_digit (c d : ascii) :
  is_digit d = true -> is_digit c = false -> ceq c d = false /\ ceq d c = false.
Proof.
  intros Hd Hc. assert (Hn : c <> d) by (intros ->; congruence).
  split; apply ceq_false; congruence.
Qed.

Lemma ol_step md_dir st l run rest :
  in_code_block st = false -> ol_start (strip l) = true ->
  Forall (fun x => ol_line x = true) run -> stops ol_line rest ->
  step md_dir st (l :: run ++ rest)
  = (emit_block st (tag (lit "ol")
       (concat (map (fun x => tag (lit "li") (inline_format (ol_item x))) (l :: run)))), rest).
Proof.
  intros Hc Ho Hrun Hstop.
  assert (Hrun' : Forall (fun x => ol_line x = true) (l :: run))
    by (constructor; [now apply ol_line_of_strip | exact Hrun]).
  pose proof (span_run ol_line (l :: run) rest Hrun' Hstop) as Hspan. cbn [app] in Hspan.
  destruct (strip l) as [|d u] eqn:Hs; [discriminate|].
  assert (Hd : is_digit d = true).
  { unfold ol_start in Ho. simpl in Ho. destruct (is_digit d); [reflexivity|discriminate]. }
  destruct (ceq_digit "#"%char d Hd eq_refl) as [_ Hh].
  destruct (ceq_digit "`"%char d Hd eq_refl) as [Hb _].
  destruct (ceq_digit "!"%char d Hd eq_refl) as [_ Hx].
  destruct (ceq_digit "-"%char d Hd eq_refl) as [_ Hm].
  destruct (ceq_digit "*"%char d Hd eq_refl) as [_ Hs'].
  destruct (ceq_digit "+"%char d Hd eq_refl) as [_ Hp].
  destruct (ceq_digit ">"%char d Hd eq_refl) as [Hg _].
  destruct (headings_of_strip l d u Hs ltac:(intros ->; discriminate)) as [H1 H2].
  unfold step. rewrite Hs.
  assert (Hf : is_fence (d :: u) = false)
    by (unfold is_fence; change (lit "```") with ["`"%char; "`"%char; "`"%char];
        cbn [starts_with]; now rewrite Hb).
  rewrite Hf, Hc, H1. unfold scan_line. rewrite Hs, H2.
  assert (Hi : image_match (d :: u) = None)
    by (unfold image_match; destruct u; [reflexivity | now rewrite Hx]).
  assert (Hdv : is_divider (d :: u) = false)
    by (unfold is_divider, rule_of; cbn [span]; now rewrite Hm, Hs').
  assert (Hq : starts_with (lit "> ") (d :: u) = false)
    by (change (lit "> ") with [">"%char; " "%char]; cbn [starts_with]; now rewrite Hg).
  assert (Hu : ul_start (d :: u) = false)
    by (unfold ul_start; destruct u; [reflexivity | now rewrite Hm, Hs', Hp]).
  rewrite Hi, Hdv, Hq, Hu, Ho, Hspan. reflexivity.
Qed.

Lemma para_step md_dir st l run rest :
  in_code_block st = false ->
  Forall (fun x => para_line x = true) (l :: run) -> stops para_line rest ->
  h_match l = None -> (h1_match l = None \/ title st <> []) ->
  step md_dir st (l :: run ++ rest)
  = (emit_block st (tag (lit "p") (inline_format (join (lit " ") (map strip (l :: run))))), rest).
Proof.
  intros Hc Hrun Hstop H2 Hh1.
  pose proof (span_run para_line (l :: run) rest Hrun Hstop) as Hspan. cbn [app] in Hspan.
  inversion Hrun as [|? ? Hl _]; subst.
  unfold para_line in Hl. destruct (strip l) as [|c u] eqn:Hs; [discriminate|].
  apply negb_true_iff in Hl. unfold _is_block_start in Hl. rewrite Hs in Hl.
  repeat rewrite orb_false_iff in Hl.
  destruct Hl as [[[[[[[Hhs Hq] Hu] Ho] Hf] Hd] Hb] Ht].
  assert (Hi : image_match (c :: u) = None).
  { destruct (image_match (c :: u)) as [[a t]|] eqn:E; [|reflexivity].
    apply image_match_head in E as [w E]. rewrite E in Hb. discriminate. }
  assert (Hsl : scan_line md_dir st l (run ++ rest)
                = (emit_block st (tag (lit "p") (inline_format (join (lit " ") (map strip (l :: run))))),
                   rest)).
  { unfold scan_line. rewrite Hs, Hi, Hd, H2, Hq, Hu, Ho, Ht, Hspan. reflexivity. }
  unfold step. rewrite Hs, Hf, Hc.
  destruct Hh1 as [H1 | Htl]; [rewrite H1; exact Hsl|].
  destruct (h1_match l); [|exact Hsl].
  destruct (title st); [congruence | exact Hsl].
Qed.

(** ** Fenced code blocks *)

Lemma push_lines_fields : forall body st,
  fold_left push_code_line body st
  = mk_scan_state (title st) (cover_image st) (content_images st) (code_blocks st)
      (dividers st) (body_lines st) (in_code_block st) (code_lang st)
      (code_content st ++ body) (first_image_seen st) (block_index st).
Proof.
  induction body as [|l body IH]; intros st.
  - destruct st; simpl. now rewrite app_nil_r.
  - simpl. rewrite IH. simpl. now rewrite <- app_assoc.
Qed.

Lemma scan_cons md_dir st l ls :
  scan md_dir (length (l :: ls)) st (l :: ls)
  = let (st', r) := step md_dir st (l :: ls) in scan md_dir (length ls) st' r.
Proof. reflexivity. Qed.

Lemma scan_code_lines md_dir : forall body st g rest,
  in_code_block st = true ->
  Forall (fun l => is_fence (strip l) = false) body ->
  scan md_dir (length (body ++ g :: rest)) st (body ++ g :: rest)
  = scan md_dir (length (g :: rest)) (fold_left push_code_line body st) (g :: rest).
Proof.
  induction body as [|l body IH]; intros st g rest Hc Hb; [reflexivity|].
  inversion Hb as [|? ? Hl Hb']; subst.
  cbn [app]. rewrite scan_cons. unfold step. rewrite Hl, Hc. cbn beta iota.
  cbn [fold_left]. apply IH; [exact Hc | exact Hb'].
Qed.

(** The language of a fence line: [line.strip().lstrip("`").strip()]. *)
Definition fence_lang (f : str) : str := strip (lstrip_char "`"%char (strip f)).

Lemma fenced_block_scan md_dir st f body g rest :
  in_code_block st = false -> code_lang st = [] -> code_content st = [] ->
  is_fence (strip f) = true -> Forall (fun l => is_fence (strip l) = false) body ->
  is_fence (strip g) = true ->
  scan md_dir (length (f :: body ++ g :: rest)) st (f :: body ++ g :: rest)
  = scan md_dir (length rest)
      (match strip (join [nl] body) with
       | [] => st
       | _ :: _ => add_code_block st (match fence_lang f with [] => lit "text" | t => t end)
                     (join [nl] body)
       end) rest.
Proof.
  intros Hc Hl Hcc Hf Hb Hg.
  rewrite scan_cons. unfold step at 1. rewrite Hf, Hc. cbn [negb]. cbn beta iota.
  fold (fence_lang f). rewrite (scan_code_lines md_dir body (open_fence st (fence_lang f)) g rest eq_refl Hb).
  rewrite scan_cons. unfold step at 1. rewrite Hg.
  rewrite push_lines_fields. cbn [in_code_block negb]. cbn beta iota.
  f_equal. unfold close_fence, open_fence. cbn [code_content code_lang].
  destruct st as [t cv ci cb dv bl ic cl cc fi bi]. cbn in Hc, Hl, Hcc. subst ic cl cc.
  cbn [app]. fold (fence_lang f).
  destruct (strip (join [nl] body)); reflexivity.
Qed.

(** ** The title *)

Lemma step_keeps_title md_dir st lines :
  title st <> [] -> title (fst (step md_dir st lines)) = title st.
Proof.
  intros Ht. destruct lines as [|l ls]; [reflexivity|].
  unfold step, scan_line, record_image, close_fence, add_code_block, open_fence,
    push_code_line, set_title, add_divider, emit_block.
  destruct (title st) as [|t ts] eqn:E; [congruence|].
  split_branches; simpl; auto.
Qed.

Lemma scan_keeps_title md_dir : forall fuel st lines,
  title st <> [] -> title (scan md_dir fuel st lines) = title st.
Proof.
  induction fuel as [|f IH]; intros st lines H; [reflexivity|].
  destruct lines as [|l ls]; [reflexivity|]. cbn [scan].
  pose proof (step_keeps_title md_dir st (l :: ls) H) as E.
  destruct (step md_dir st (l :: ls)) as [st' r]. simpl in E.
  rewrite IH by congruence. exact E.
Qed.

Lemma blank_title_step md_dir st l rest g :
  in_code_block st = false -> title st = [] -> h1_match l = Some g -> strip g = [] ->
  step md_dir st (l :: rest) = (st, rest).
Proof.
  intros Hc Ht Hh Hg. destruct (h1_match_shape l g Hh) as [t Hl].
  unfold step. rewrite Hl at 1. rewrite strip_cons_nonspace by reflexivity.
  cbn [is_fence]. simpl (starts_with (lit "```") _). rewrite Hc, Hh, Ht, Hg.
  destruct st as [t0 cv ci cb dv bl ic cl cc fi bi]. cbn in Ht. subst t0. reflexivity.
Qed.

(** ** The HTML blocks *)

(** The tags of the blocks that [parse_markdown] appends to [body_lines]. *)
Definition block_tags : list str :=
  [lit "h2"; lit "h3"; lit "h4"; lit "h5"; lit "h6"; lit "blockquote"; lit "ul"; lit "ol"; lit "p"].

Definition block_tag_ok (t : str) : bool :=
  existsb (fun u => if list_eq_dec ascii_dec u t then true else false) block_tags.

Definition html_blocks_ok (st : scan_state) : Prop :=
  Forall (fun b => exists t x, b = tag t x /\ block_tag_ok t = true) (body_lines st).

Lemma step_html_blocks md_dir st lines :
  html_blocks_ok st -> html_blocks_ok (fst (step md_dir st lines)).
Proof.
  unfold html_blocks_ok. intros H. destruct lines as [|l ls]; [exact H|].
  unfold step, scan_line, record_image, close_fence, add_code_block, open_fence,
    push_code_line, set_title, add_divider, emit_block.
  split_branches_eqn; cbn [fst body_lines]; try exact H;
    apply Forall_app; (split; [exact H|]); apply Forall_cons; try apply Forall_nil;
    eexists; eexists; (split; [reflexivity|]); try (vm_compute; reflexivity).
  all: match goal with
       | E : h_match _ = Some (?n, _) |- _ =>
           destruct (h_match_shape _ _ _ E) as [Hn _];
           destruct n as [|[|[|[|[|[|[|n]]]]]]]; try lia; vm_compute; reflexivity
       end.
Qed.

Lemma scan_html_blocks md_dir : forall fuel st lines,
  html_blocks_ok st -> html_blocks_ok (scan md_dir fuel st lines).
Proof.
  induction fuel as [|f IH]; intros st lines H; [exact H|].
  destruct lines as [|l ls]; [exact H|]. cbn [scan].
  pose proof (step_html_blocks md_dir st (l :: ls) H) as E.
  destruct (step md_dir st (l :: ls)) as [st' r]. simpl in E. now apply IH.
Qed.

(** ** Image paths *)

Definition path_ok (p : str) : bool := isabs p || starts_with (lit "http") p.

Lemma normpath_abs (p : str) : isabs p = true -> isabs (normpath p) = true.
Proof.
  intros H. destruct p as [|c t]; [discriminate|].
  unfold isabs in H. cbn [starts_with] in H. rewrite andb_true_r in H.
  apply ceq_true in H. subst c. unfold normpath.
  change (starts_with [slash] (slash :: t)) with (ceq slash slash && true).
  rewrite ceq_refl. cbn [andb].
  set (k := if starts_with (lit "//") (slash :: t) && negb (starts_with (lit "///") (slash :: t))
            then 2 else 1).
  assert (Hk : exists k', k = S k') by (subst k; destruct (_ && _); eauto).
  destruct Hk as [k' ->]. reflexivity.
Qed.

Lemma resolve_image_ok (md_dir p : str) :
  isabs md_dir = true -> path_ok (resolve_image md_dir p) = true.
Proof.
  intros Hm. unfold resolve_image, path_ok.
  destruct (isabs p) eqn:Ha; [cbn [negb andb]; now rewrite Ha|].
  destruct (starts_with (lit "http") p) eqn:Hh; [cbn [negb andb]; rewrite Ha, Hh; reflexivity|].
  cbn [negb andb]. rewrite normpath_abs; [reflexivity|].
  unfold path_join. fold (isabs p). rewrite Ha.
  destruct md_dir as [|c m]; [discriminate|].
  unfold isabs in Hm |- *. cbn [starts_with] in Hm. rewrite andb_true_r in Hm.
  destruct (ceq (last (c :: m) " "%char) slash); cbn [app starts_with]; now rewrite Hm.
Qed.

Definition images_ok (st : scan_state) : Prop :=
  (forall c, cover_image st = Some c -> path_ok c = true) /\
  Forall (fun ci => path_ok (img_path ci) = true) (content_images st).

Lemma step_images_ok md_dir st lines :
  isabs md_dir = true -> images_ok st -> images_ok (fst (step md_dir st lines)).
Proof.
  intros Hm [Hcv Hci]. destruct lines as [|l ls]; [split; assumption|].
  pose proof (resolve_image_ok md_dir) as Hr.
  unfold step, scan_line, record_image, close_fence, add_code_block, open_fence,
    push_code_line, set_title, add_divider, emit_block.
  split_branches; cbn [fst cover_image content_images];
    (split; [|try exact Hci]); try exact Hcv;
    try (intros c0 Hc0; injection Hc0 as <-; now apply Hr).
  all: apply Forall_app; split; [exact Hci | constructor; [now apply Hr | constructor]].
Qed.

Lemma scan_images_ok md_dir : forall fuel st lines,
  isabs md_dir = true -> images_ok st -> images_ok (scan md_dir fuel st lines).
Proof.
  induction fuel as [|f IH]; intros st lines Hm H; [exact H|].
  destruct lines as [|l ls]; [exact H|]. cbn [scan].
  pose proof (step_images_ok md_dir st (l :: ls) Hm H) as E.
  destruct (step md_dir st (l :: ls)) as [st' r]. simpl in E. now apply IH.
Qed.

(** ** [strip_frontmatter] and the line split *)

Lemma lstrip_char_suffix (ch : ascii) (s : str) : exists u, s = u ++ lstrip_char ch s.
Proof.
  induction s as [|c t [u Hu]]; simpl; [now exists []|].
  destruct (ceq c ch); [exists (c :: u); simpl; now rewrite <- Hu | now exists []].
Qed.

Lemma join_cons (sep x : str) (r : list str) :
  r <> [] -> join sep (x :: r) = x ++ sep ++ join sep r.
Proof. destruct r; [congruence | reflexivity]. Qed.

Lemma split_on_nonempty (sep : ascii) (s : str) : split_on sep s <> [].
Proof.
  destruct s as [|c t]; simpl; [discriminate|].
  destruct (ceq c sep); [discriminate|]. destruct (split_on sep t); discriminate.
Qed.

Lemma join_split_on (sep : ascii) : forall s, join [sep] (split_on sep s) = s.
Proof.
  induction s as [|c t IH]; [reflexivity|]. cbn [split_on].
  destruct (ceq c sep) eqn:E.
  - apply ceq_true in E. subst c.
    rewrite join_cons by apply split_on_nonempty. simpl. now rewrite IH.
  - destruct (split_on sep t) as [|x r] eqn:Es; [now apply split_on_nonempty in Es|].
    destruct r as [|y r]; [simpl in IH |- *; now rewrite IH|].
    change (join [sep] ((c :: x) :: y :: r)) with ((c :: x) ++ [sep] ++ join [sep] (y :: r)).
    change (join [sep] (x :: y :: r)) with (x ++ [sep] ++ join [sep] (y :: r)) in IH.
    rewrite <- IH. reflexivity.
Qed.

Lemma split_on_no_sep (sep : ascii) : forall s,
  Forall (fun x => forallb (fun c => negb (ceq c sep)) x = true) (split_on sep s).
Proof.
  induction s as [|c t IH]; simpl; [repeat constructor|].
  destruct (ceq c sep) eqn:E; [constructor; [reflexivity | exact IH]|].
  destruct (split_on sep t) as [|x r]; [repeat constructor; simpl; now rewrite E|].
  inversion IH as [|? ? Hx Hr]; subst. constructor; [simpl; now rewrite E, Hx | exact Hr].
Qed.

Lemma strip_frontmatter_suffix (text : str) :
  exists u, text = u ++ strip_frontmatter text.
Proof.
  unfold strip_frontmatter.
  destruct (starts_with (lit "---") text); [|now exists []].
  destruct (find_from (lit "---") (skipn 3 text) 3) as [e|]; [|now exists []].
  destruct (lstrip_char_suffix nl (skipn (e + 3) text)) as [u Hu].
  exists (firstn (e + 3) text ++ u). rewrite <- app_assoc. unfold lstrip_nl. rewrite <- Hu.
  symmetry. apply firstn_skipn.
Qed.

(** ** Inline spans *)

Lemma sub_fuel_nil (m : matcher) (f : nat) : sub_fuel m f [] = [].
Proof. destruct f; reflexivity. Qed.

Lemma sub_fuel_good_prefix (m : matcher) (good : ascii -> bool)
  (Hm : forall c t, good c = true -> m (c :: t) = None) :
  forall x k y, forallb good x = true ->
  sub_fuel m (length x + k) (x ++ y) = x ++ sub_fuel m k y.
Proof.
  induction x as [|c x IH]; intros k y Hx; [reflexivity|].
  simpl in Hx. apply andb_true_iff in Hx as [Hc Hx].
  cbn [length app Nat.add sub_fuel]. rewrite (Hm c (x ++ y) Hc). f_equal. now apply IH.
Qed.

Lemma lazy_group_plain (e : ascii) (d' : str) : forall x,
  x <> [] -> forallb (fun c => not_nl c && negb (ceq c e)) x = true ->
  lazy_group (e :: d') (x ++ e :: d') = Some (x, []).
Proof.
  induction x as [|c x IH]; intros Hne Hx; [congruence|].
  simpl in Hx. apply andb_true_iff in Hx as [Hc Hx]. apply andb_true_iff in Hc as [Hn He].
  cbn [app lazy_group]. unfold not_nl in Hn. apply negb_true_iff in Hn. rewrite Hn.
  destruct x as [|c' x].
  - cbn [app]. rewrite (proj2 (starts_with_spec (e :: d') (e :: d')) (ex_intro _ [] (eq_sym (app_nil_r _)))).
    now rewrite skipn_all.
  - simpl in Hx. pose proof Hx as Hx0. apply andb_true_iff in Hx0 as [Hc' _]. apply andb_true_iff in Hc' as [_ He'].
    apply negb_true_iff in He'.
    cbn [app starts_with]. unfold ceq in He' |- *. rewrite Ascii.eqb_sym, He'. cbn [andb].
    cbn [app] in IH. rewrite IH; [reflexivity | discriminate | exact Hx].
Qed.

Lemma star_free (d o cl : str) (c : ascii) (t : str) :
  negb (markup_char c) = true -> delimited ("*"%char :: d) o cl (c :: t) = None.
Proof. intros H. apply markup_free_chars in H as (H & _). now apply delimited_head_none. Qed.

Lemma tilde_free (d o cl : str) (c : ascii) (t : str) :
  negb (markup_char c) = true -> delimited ("~"%char :: d) o cl (c :: t) = None.
Proof. intros H. apply markup_free_chars in H as (_ & H & _). now apply delimited_head_none. Qed.

Lemma inline_code_free (c : ascii) (t : str) :
  negb (markup_char c) = true -> inline_code (c :: t) = None.
Proof.
  intros H. apply markup_free_chars in H as (_ & _ & H & _).
  unfold inline_code. unfold ceq in *. rewrite Ascii.eqb_sym in H. now rewrite H.
Qed.

Lemma link_free (c : ascii) (t : str) :
  negb (markup_char c) = true -> link (c :: t) = None.
Proof.
  intros H. apply markup_free_chars in H as (_ & _ & _ & H).
  unfold link. unfold ceq in *. rewrite Ascii.eqb_sym in H. now rewrite H.
Qed.

Definition plain_char (c : ascii) : bool := not_nl c && negb (markup_char c).

Lemma plain_free (x : str) : forallb plain_char x = true -> no_markup x = true.
Proof.
  unfold no_markup. induction x as [|c x IH]; simpl; [reflexivity|].
  intros H. apply andb_true_iff in H as [Hc Hx]. apply andb_true_iff in Hc as [_ Hc].
  now rewrite Hc, IH.
Qed.

Lemma plain_not (x : str) (e : ascii) :
  markup_char e = true -> forallb plain_char x = true ->
  forallb (fun c => not_nl c && negb (ceq c e)) x = true.
Proof.
  intros He. induction x as [|c x IH]; simpl; [reflexivity|].
  intros H. apply andb_true_iff in H as [Hc Hx]. apply andb_true_iff in Hc as [Hn Hm].
  rewrite Hn, IH by exact Hx. cbn [andb]. rewrite andb_true_r.
  destruct (ceq c e) eqn:E; [|reflexivity]. apply ceq_true in E. subst. now rewrite He in Hm.
Qed.

Lemma re_sub_star_id (d o cl s : str) :
  no_markup s = true -> re_sub (delimited ("*"%char :: d) o cl) s = s.
Proof. apply re_sub_id. intros c t Hc. now apply star_free. Qed.

Lemma re_sub_tilde_id (d o cl s : str) :
  no_markup s = true -> re_sub (delimited ("~"%char :: d) o cl) s = s.
Proof. apply re_sub_id. intros c t Hc. now apply tilde_free. Qed.

Lemma re_sub_code_id (s : str) : no_markup s = true -> re_sub inline_code s = s.
Proof. apply re_sub_id. intros c t Hc. now apply inline_code_free. Qed.

Lemma re_sub_link_id (s : str) : no_markup s = true -> re_sub link s = s.
Proof. apply re_sub_id. intros c t Hc. now apply link_free. Qed.

Lemma no_markup_app (x y : str) : no_markup (x ++ y) = no_markup x && no_markup y.
Proof. apply forallb_app. Qed.

Lemma sub_fuel_none_step (m : matcher) (f : nat) (c : ascii) (t : str) :
  m (c :: t) = None -> sub_fuel m (S f) (c :: t) = c :: sub_fuel m f t.
Proof. intros H. cbn [sub_fuel]. now rewrite H. Qed.

Lemma sub_fuel_some_step (m : matcher) (f : nat) (c : ascii) (t r rest : str) :
  m (c :: t) = Some (r, rest) -> sub_fuel m (S f) (c :: t) = r ++ sub_fuel m f rest.
Proof. intros H. cbn [sub_fuel]. now rewrite H. Qed.

Definition free_char (c : ascii) : bool := negb (markup_char c).

(** A pass that finds no match in a text [pre ++ x ++ post] with plain [x]. *)
Lemma pass_id_2 (m : matcher) (a b : ascii) (x post : str)
  (Hm : forall c t, free_char c = true -> m (c :: t) = None) :
  m (a :: b :: x ++ post) = None -> m (b :: x ++ post) = None ->
  forallb free_char x = true -> sub_fuel m (length post) post = post ->
  re_sub m (a :: b :: x ++ post) = a :: b :: x ++ post.
Proof.
  intros Ha Hb Hx Hp. unfold re_sub. cbn [length].
  rewrite (sub_fuel_none_step _ _ _ _ Ha), (sub_fuel_none_step _ _ _ _ Hb), length_app.
  rewrite (sub_fuel_good_prefix m free_char Hm x (length post) post Hx), Hp. reflexivity.
Qed.

Lemma pass_id_1 (m : matcher) (a : ascii) (x post : str)
  (Hm : forall c t, free_char c = true -> m (c :: t) = None) :
  m (a :: x ++ post) = None ->
  forallb free_char x = true -> sub_fuel m (length post) post = post ->
  re_sub m (a :: x ++ post) = a :: x ++ post.
Proof.
  intros Ha Hx Hp. unfold re_sub. cbn [length].
  rewrite (sub_fuel_none_step _ _ _ _ Ha), length_app.
  rewrite (sub_fuel_good_prefix m free_char Hm x (length post) post Hx), Hp. reflexivity.
Qed.

Lemma pass_match (m : matcher) (a : ascii) (t r : str) :
  m (a :: t) = Some (r, []) -> re_sub m (a :: t) = r.
Proof.
  intros H. unfold re_sub. cbn [length].
  rewrite (sub_fuel_some_step _ _ _ _ _ _ H), sub_fuel_nil. apply app_nil_r.
Qed.

Lemma plain_free_chars (x : str) : forallb plain_char x = true -> forallb free_char x = true.
Proof. intros H. exact (plain_free x H). Qed.

Lemma tail_passes_id (s : str) :
  no_markup s = true ->
  re_sub link (re_sub inline_code
    (re_sub (delimited (lit "~~") (lit "<del>") (lit "</del>")) s)) = s.
Proof.
  intros H. change (lit "~~") with ("~"%char :: lit "~").
  rewrite (re_sub_tilde_id _ _ _ _ H), (re_sub_code_id _ H). exact (re_sub_link_id _ H).
Qed.

Lemma plain_head (c0 : ascii) (x' : str) :
  forallb plain_char (c0 :: x') = true ->
  ceq "*"%char c0 = false /\ ceq "~"%char c0 = false /\ ceq "`"%char c0 = false.
Proof.
  intros H. simpl in H. apply andb_true_iff in H as [H _]. apply andb_true_iff in H as [_ H].
  apply markup_free_chars in H as (H1 & H2 & H3 & _). auto.
Qed.

Lemma inline_bold (x : str) :
  x <> [] -> forallb plain_char x = true ->
  inline_format (lit "**" ++ x ++ lit "**") = lit "<strong>" ++ x ++ lit "</strong>".
Proof.
  intros Hne Hx. pose proof (plain_free_chars x Hx) as Hf.
  assert (Hnm : no_markup x = true) by exact Hf.
  pose proof (plain_not x "*"%char eq_refl Hx) as Hs.
  destruct x as [|c0 x']; [congruence|].
  destruct (plain_head c0 x' Hx) as (Hc0 & _ & _).
  change (lit "**" ++ (c0 :: x') ++ lit "**")
    with ("*"%char :: "*"%char :: (c0 :: x') ++ ["*"%char; "*"%char]).
  unfold inline_format.
  rewrite (pass_id_2 _ "*"%char "*"%char (c0 :: x') ["*"%char; "*"%char]);
    [| intros c t Hc; now apply star_free
     | unfold delimited; change (lit "***") with ["*"%char; "*"%char; "*"%char];
       cbn [starts_with app]; now rewrite Hc0
     | unfold delimited; change (lit "***") with ["*"%char; "*"%char; "*"%char];
       cbn [starts_with app]; now rewrite Hc0
     | exact Hf | reflexivity].
  rewrite (pass_match _ "*"%char _ (lit "<strong>" ++ (c0 :: x') ++ lit "</strong>")).
  2:{ unfold delimited. change (lit "**") with ["*"%char; "*"%char].
      cbn [starts_with length skipn]. rewrite (lazy_group_plain "*"%char ["*"%char]).
      - reflexivity.
      - discriminate.
      - exact Hs. }
  assert (Hn : no_markup (lit "<strong>" ++ (c0 :: x') ++ lit "</strong>") = true)
    by (rewrite !no_markup_app, Hnm; reflexivity).
  change (lit "*") with ["*"%char]. rewrite (re_sub_star_id _ _ _ _ Hn).
  exact (tail_passes_id _ Hn).
Qed.

Lemma inline_italic (x : str) :
  x <> [] -> forallb plain_char x = true ->
  inline_format (lit "*" ++ x ++ lit "*") = lit "<em>" ++ x ++ lit "</em>".
Proof.
  intros Hne Hx. pose proof (plain_free_chars x Hx) as Hf.
  assert (Hnm : no_markup x = true) by exact Hf.
  pose proof (plain_not x "*"%char eq_refl Hx) as Hs.
  destruct x as [|c0 x']; [congruence|].
  destruct (plain_head c0 x' Hx) as (Hc0 & _ & _).
  change (lit "*" ++ (c0 :: x') ++ lit "*") with ("*"%char :: (c0 :: x') ++ ["*"%char]).
  unfold inline_format.
  rewrite (pass_id_1 _ "*"%char (c0 :: x') ["*"%char]);
    [| intros c t Hc; now apply star_free
     | unfold delimited; change (lit "***") with ["*"%char; "*"%char; "*"%char];
       cbn [starts_with app]; now rewrite Hc0
     | exact Hf | reflexivity].
  rewrite (pass_id_1 _ "*"%char (c0 :: x') ["*"%char]);
    [| intros c t Hc; now apply star_free
     | unfold delimited; change (lit "**") with ["*"%char; "*"%char];
       cbn [starts_with app]; now rewrite Hc0
     | exact Hf | reflexivity].
  rewrite (pass_match _ "*"%char _ (lit "<em>" ++ (c0 :: x') ++ lit "</em>")).
  2:{ unfold delimited. change (lit "*") with ["*"%char].
      cbn [starts_with length skipn]. rewrite (lazy_group_plain "*"%char []).
      - reflexivity.
      - discriminate.
      - exact Hs. }
  assert (Hn : no_markup (lit "<em>" ++ (c0 :: x') ++ lit "</em>") = true)
    by (rewrite !no_markup_app, Hnm; reflexivity).
  exact (tail_passes_id _ Hn).
Qed.

Lemma inline_strike (x : str) :
  x <> [] -> forallb plain_char x = true ->
  inline_format (lit "~~" ++ x ++ lit "~~") = lit "<del>" ++ x ++ lit "</del>".
Proof.
  intros Hne Hx. pose proof (plain_free_chars x Hx) as Hf.
  assert (Hnm : no_markup x = true) by exact Hf.
  pose proof (plain_not x "~"%char eq_refl Hx) as Hs.
  change (lit "~~" ++ x ++ lit "~~") with ("~"%char :: "~"%char :: x ++ ["~"%char; "~"%char]).
  unfold inline_format.
  rewrite (pass_id_2 _ "~"%char "~"%char x ["~"%char; "~"%char]);
    [| intros c t Hc; now apply star_free | apply delimited_head_none; reflexivity
     | apply delimited_head_none; reflexivity | exact Hf | reflexivity].
  rewrite (pass_id_2 _ "~"%char "~"%char x ["~"%char; "~"%char]);
    [| intros c t Hc; now apply star_free | apply delimited_head_none; reflexivity
     | apply delimited_head_none; reflexivity | exact Hf | reflexivity].
  rewrite (pass_id_2 _ "~"%char "~"%char x ["~"%char; "~"%char]);
    [| intros c t Hc; now apply star_free | apply delimited_head_none; reflexivity
     | apply delimited_head_none; reflexivity | exact Hf | reflexivity].
  rewrite (pass_match _ "~"%char _ (lit "<del>" ++ x ++ lit "</del>")).
  2:{ unfold delimited. change (lit "~~") with ["~"%char; "~"%char].
      cbn [starts_with length skipn]. rewrite (lazy_group_plain "~"%char ["~"%char]).
      - reflexivity.
      - exact Hne.
      - exact Hs. }
  assert (Hn : no_markup (lit "<del>" ++ x ++ lit "</del>") = true)
    by (rewrite !no_markup_app, Hnm; reflexivity).
  rewrite (re_sub_code_id _ Hn). exact (re_sub_link_id _ Hn).
Qed.

Lemma inline_code_span (x : str) :
  x <> [] -> forallb plain_char x = true ->
  inline_format (lit "`" ++ x ++ lit "`") = lit "<strong>" ++ x ++ lit "</strong>".
Proof.
  intros Hne Hx. pose proof (plain_free_chars x Hx) as Hf.
  assert (Hnm : no_markup x = true) by exact Hf.
  assert (Hb : forallb (fun c => negb (ceq c "`"%char)) x = true).
  { pose proof (plain_not x "`"%char eq_refl Hx) as H. clear - H.
    induction x as [|c x IH]; [reflexivity|]. simpl in H |- *.
    apply andb_true_iff in H as [Hc H]. apply andb_true_iff in Hc as [_ Hc].
    rewrite Hc. now apply IH. }
  change (lit "`" ++ x ++ lit "`") with ("`"%char :: x ++ ["`"%char]).
  unfold inline_format.
  do 4 (rewrite (pass_id_1 _ "`"%char x ["`"%char]);
    [| intros c t Hc; first [now apply star_free | now apply tilde_free]
     | apply delimited_head_none; reflexivity | exact Hf | reflexivity]).
  rewrite (pass_match _ "`"%char _ (lit "<strong>" ++ x ++ lit "</strong>")).
  2:{ unfold inline_code. rewrite ceq_refl.
      rewrite (span_forallb_prefix _ x ["`"%char] Hb). cbn [fst snd span].
      rewrite ceq_refl. cbn [negb]. rewrite app_nil_r.
      destruct x; [congruence | reflexivity]. }
  assert (Hn : no_markup (lit "<strong>" ++ x ++ lit "</strong>") = true)
    by (rewrite !no_markup_app, Hnm; reflexivity).
  exact (re_sub_link_id _ Hn).
Qed.

Definition free5 (c : ascii) : bool := negb (ceq c "*"%char || ceq c "~"%char || ceq c "`"%char).

Lemma free5_chars (c : ascii) :
  free5 c = true -> ceq "*"%char c = false /\ ceq "~"%char c = false /\ ceq "`"%char c = false.
Proof.
  unfold free5, ceq. rewrite !(Ascii.eqb_sym _ c).
  destruct (Ascii.eqb c "*"%char), (Ascii.eqb c "~"%char), (Ascii.eqb c "`"%char);
    simpl; intros H; try discriminate; auto.
Qed.

Lemma plain_free5 (x : str) : forallb plain_char x = true -> forallb free5 x = true.
Proof.
  induction x as [|c x IH]; simpl; [reflexivity|].
  intros H. apply andb_true_iff in H as [Hc Hx]. apply andb_true_iff in Hc as [_ Hc].
  rewrite (IH Hx), andb_true_r. unfold markup_char in Hc. unfold free5.
  destruct (ceq c "*"%char), (ceq c "~"%char), (ceq c "`"%char), (ceq c "["%char);
    easy.
Qed.

Lemma negb_ceq_of (x : str) (e : ascii) :
  forallb (fun c => not_nl c && negb (ceq c e)) x = true ->
  forallb (fun c => negb (ceq c e)) x = true.
Proof.
  induction x as [|c x IH]; simpl; [reflexivity|].
  intros H. apply andb_true_iff in H as [Hc H]. apply andb_true_iff in Hc as [_ Hc].
  rewrite Hc. now apply IH.
Qed.

Lemma inline_link (a b : str) :
  a <> [] -> b <> [] -> forallb plain_char a = true -> forallb plain_char b = true ->
  forallb (fun c => negb (ceq c "]"%char)) a = true ->
  forallb (fun c => negb (ceq c ")"%char)) b = true ->
  inline_format (lit "[" ++ a ++ lit "](" ++ b ++ lit ")")
  = lit "<a href=" ++ [dquote] ++ b ++ [dquote] ++ lit ">" ++ a ++ lit "</a>".
Proof.
  intros Ha Hb Hpa Hpb Hra Hrb.
  set (s := lit "[" ++ a ++ lit "](" ++ b ++ lit ")").
  assert (H5 : forallb free5 s = true).
  { subst s. rewrite !forallb_app, (plain_free5 a Hpa), (plain_free5 b Hpb). reflexivity. }
  assert (Hs : forall d o cl, re_sub (delimited ("*"%char :: d) o cl) s = s).
  { intros d o cl. apply (re_sub_id _ free5); [|exact H5].
    intros c t Hc. apply free5_chars in Hc as (Hc & _). now apply delimited_head_none. }
  assert (Ht : forall d o cl, re_sub (delimited ("~"%char :: d) o cl) s = s).
  { intros d o cl. apply (re_sub_id _ free5); [|exact H5].
    intros c t Hc. apply free5_chars in Hc as (_ & Hc & _). now apply delimited_head_none. }
  assert (Hq : re_sub inline_code s = s).
  { apply (re_sub_id _ free5); [|exact H5].
    intros c t Hc. apply free5_chars in Hc as (_ & _ & Hc).
    unfold inline_code. unfold ceq in *. rewrite Ascii.eqb_sym in Hc. now rewrite Hc. }
  unfold inline_format.
  change (lit "***") with ("*"%char :: lit "**"). rewrite Hs.
  change (lit "**") with ("*"%char :: lit "*"). rewrite Hs.
  change (lit "*") with ("*"%char :: []). rewrite Hs.
  change (lit "~~") with ("~"%char :: lit "~"). rewrite Ht. rewrite Hq.
  subst s. change (lit "[" ++ a ++ lit "](" ++ b ++ lit ")")
    with ("["%char :: a ++ "]"%char :: "("%char :: b ++ [")"%char]).
  apply pass_match. unfold link. rewrite ceq_refl.
  rewrite (span_forallb_prefix _ a _ Hra). cbn [fst snd span]. rewrite ceq_refl. cbn [negb].
  rewrite app_nil_r. destruct a as [|a0 a']; [congruence|]. cbn [snd]. rewrite ceq_refl.
  rewrite (span_forallb_prefix _ b _ Hrb). cbn [fst snd span]. rewrite ceq_refl. cbn [negb].
  rewrite app_nil_r. destruct b as [|b0 b']; [congruence|]. reflexivity.
Qed.

(** * Further properties *)

(** X1: outside a code block, blank lines (lines that strip to nothing)
    leave the scanner state unchanged; a text made only of whitespace gives
    the empty document (no title, no cover, no blocks, empty html). *)
Theorem blank_lines_change_nothing :
  (forall md_dir st lines, in_code_block st = false ->
     Forall (fun l => strip l = []) lines -> scan md_dir (length lines) st lines = st) /\
  (forall md_dir content, forallb is_space content = true ->
     parse_markdown md_dir content = mk_document [] None [] [] [] 0 []).
Proof.
  split.
  - intros md_dir st lines Hc Hb. now apply blank_scan.
  - intros md_dir content Hs. unfold parse_markdown.
    assert (Hf : strip_frontmatter content = content).
    { unfold strip_frontmatter. destruct content as [|c t]; [reflexivity|].
      simpl in Hs. apply andb_true_iff in Hs as [Hc _].
      assert (E : ceq "-"%char c = false) by (apply ceq_false; intros <-; discriminate Hc).
      change (lit "---") with ["-"%char; "-"%char; "-"%char]. cbn [starts_with].
      now rewrite E. }
    rewrite Hf. unfold parse_lines. rewrite blank_scan; [reflexivity | reflexivity|].
    pose proof (split_on_forall is_space nl content Hs) as H.
    eapply Forall_impl; [|exact H]. intros x Hx. now apply strip_all_space.
Qed.

Lemma blank_lines_change_nothing_witness :
  forallb is_space (lit "  " ++ [nl] ++ lit " " ++ [nl]) = true /\
  parse_markdown (lit "/d") (lit "  " ++ [nl] ++ lit " " ++ [nl]) = mk_document [] None [] [] [] 0 [].
Proof.
  split; [reflexivity|].
  apply (proj2 blank_lines_change_nothing). reflexivity.
Defined.

(** X2: outside a code block, a divider line ([---], [***] or longer, with
    trailing whitespace) appends the current block index to [dividers] and
    changes nothing else. *)
Theorem divider_line_recorded md_dir st l rest :
  in_code_block st = false -> is_divider (strip l) = true ->
  step md_dir st (l :: rest) = (add_divider st, rest).
Proof. apply divider_step. Qed.

Lemma divider_line_recorded_witness :
  step (lit "/d") init_state [lit " ***  "] = (add_divider init_state, []).
Proof. apply divider_line_recorded; reflexivity. Defined.

(** X3: outside a code block, a line [#..# text] with two to six [#] (the
    test is on the unstripped line) emits one [<hN>] block, N the number of
    [#], holding the inline-formatted stripped text, and advances the block
    index.  A heading whose text is blank gives an empty block:
    [##   ] gives [<h2></h2>]. *)
Theorem heading_line_emitted :
  (forall md_dir st l rest n g,
     in_code_block st = false -> h_match l = Some (n, g) ->
     (2 <= n <= 6 /\ exists t, l = repeat "#"%char n ++ " "%char :: t) /\
     step md_dir st (l :: rest)
     = (emit_block st (tag (lit "h" ++ [digit_of n]) (inline_format (strip g))), rest)) /\
  doc_html (parse_markdown (lit "/d") (lit "##   ")) = lit "<h2></h2>".
Proof.
  split; [|vm_compute; reflexivity].
  intros md_dir st l rest n g Hc Hh. split.
  - exact (h_match_shape l n g Hh).
  - now apply heading_step.
Qed.

Lemma heading_line_emitted_witness :
  step (lit "/d") init_state [lit "### Hi"]
  = (emit_block init_state (tag (lit "h" ++ [digit_of 3]) (inline_format (lit "Hi"))), []).
Proof.
  destruct heading_line_emitted as [H _].
  apply (H (lit "/d") init_state (lit "### Hi") [] 3 (lit "Hi") eq_refl eq_refl).
Defined.

(** X4: outside a code block, a line whose stripped text starts with [![]
    but is not a well-formed image line is dropped: no block, no image, no
    index change. *)
Theorem broken_image_line_dropped md_dir st l rest :
  in_code_block st = false -> starts_with (lit "![") (strip l) = true ->
  image_match (strip l) = None -> step md_dir st (l :: rest) = (st, rest).
Proof. apply broken_image_step. Qed.

Lemma broken_image_line_dropped_witness :
  step (lit "/d") init_state [lit "![alt](x.png"; lit "text"] = (init_state, [lit "text"]).
Proof. apply broken_image_line_dropped; reflexivity. Defined.

(** X5: outside a code block, a maximal run of lines that strip to text
    starting with [> ] emits one [<blockquote>] block: the lines, stripped
    and without their first two characters, joined by spaces and
    inline-formatted. *)
Theorem blockquote_run_emitted md_dir st run rest :
  in_code_block st = false -> run <> [] ->
  Forall (fun l => quote_line l = true) run -> stops quote_line rest ->
  step md_dir st (run ++ rest)
  = (emit_block st (tag (lit "blockquote")
       (inline_format (join (lit " ") (map (fun l => skipn 2 (strip l)) run)))), rest).
Proof. apply quote_step. Qed.

Lemma blockquote_run_emitted_witness :
  step (lit "/d") init_state ([lit "> a"; lit " > b"] ++ [lit "c"])
  = (emit_block init_state (tag (lit "blockquote") (inline_format (lit "a b"))), [lit "c"]).
Proof.
  apply blockquote_run_emitted; [reflexivity | discriminate | repeat constructor | reflexivity].
Defined.

(** X6: outside a code block, a line that strips to [- x], [* x] or [+ x]
    starts an unordered list that takes every following line matching
    [^\s*[-*+] ]; it emits one [<ul>] block with one [<li>] per line. *)
Theorem unordered_list_run_emitted md_dir st l run rest :
  in_code_block st = false -> ul_start (strip l) = true ->
  Forall (fun x => ul_line x = true) run -> stops ul_line rest ->
  step md_dir st (l :: run ++ rest)
  = (emit_block st (tag (lit "ul")
       (concat (map (fun x => tag (lit "li") (inline_format (ul_item x))) (l :: run)))), rest).
Proof. apply ul_step. Qed.

Lemma unordered_list_run_emitted_witness :
  step (lit "/d") init_state (lit "- a" :: [lit "  * b"] ++ [])
  = (emit_block init_state (tag (lit "ul")
       (tag (lit "li") (inline_format (lit "a")) ++ tag (lit "li") (inline_format (lit "b")))), []).
Proof.
  rewrite (unordered_list_run_emitted (lit "/d") init_state (lit "- a") [lit "  * b"] []
             eq_refl eq_refl ltac:(repeat constructor) I).
  reflexivity.
Defined.

(** X7: outside a code block, a line that strips to [digits. x] starts an
    ordered list that takes every following line matching [^\s*\d+\. ]; it
    emits one [<ol>] block with one [<li>] per line. *)
Theorem ordered_list_run_emitted md_dir st l run rest :
  in_code_block st = false -> ol_start (strip l) = true ->
  Forall (fun x => ol_line x = true) run -> stops ol_line rest ->
  step md_dir st (l :: run ++ rest)
  = (emit_block st (tag (lit "ol")
       (concat (map (fun x => tag (lit "li") (inline_format (ol_item x))) (l :: run)))), rest).
Proof. apply ol_step. Qed.

Lemma ordered_list_run_emitted_witness :
  step (lit "/d") init_state (lit "1. a" :: [lit "10. b"] ++ [])
  = (emit_block init_state (tag (lit "ol")
       (tag (lit "li") (inline_format (lit "a")) ++ tag (lit "li") (inline_format (lit "b")))), []).
Proof.
  rewrite (ordered_list_run_emitted (lit "/d") init_state (lit "1. a") [lit "10. b"] []
             eq_refl eq_refl ltac:(repeat constructor) I).
  reflexivity.
Defined.

(** X8: outside a code block, a maximal run of non-blank lines none of
    which starts a block ([_is_block_start] false) emits one [<p>] block:
    the stripped lines joined by spaces and inline-formatted, provided the
    first line is neither a level 2-6 heading nor a title line. *)
Theorem paragraph_run_emitted md_dir st l run rest :
  in_code_block st = false ->
  Forall (fun x => para_line x = true) (l :: run) -> stops para_line rest ->
  h_match l = None -> (h1_match l = None \/ title st <> []) ->
  step md_dir st (l :: run ++ rest)
  = (emit_block st (tag (lit "p") (inline_format (join (lit " ") (map strip (l :: run))))), rest).
Proof. apply para_step. Qed.

Lemma paragraph_run_emitted_witness :
  step (lit "/d") init_state (lit "hello" :: [lit " world "] ++ [lit ""])
  = (emit_block init_state (tag (lit "p") (inline_format (lit "hello world"))), [lit ""]).
Proof.
  rewrite (paragraph_run_emitted (lit "/d") init_state (lit "hello") [lit " world "] [lit ""]
             eq_refl ltac:(repeat constructor) eq_refl eq_refl (or_introl eq_refl)).
  reflexivity.
Defined.

(** X9: a fenced code block (an opening fence line, body lines that are
    not fences, a closing fence line), met outside a code block, is stored
    as one code block whose language is the text after the backticks of the
    opening fence ([text] when empty) and whose code is the body joined by
    newlines; a body that is blank after stripping is not stored.  The
    scan then goes on after the closing fence. *)
Theorem fenced_code_block_stored md_dir st f body g rest :
  in_code_block st = false -> code_lang st = [] -> code_content st = [] ->
  is_fence (strip f) = true -> Forall (fun l => is_fence (strip l) = false) body ->
  is_fence (strip g) = true ->
  scan md_dir (length (f :: body ++ g :: rest)) st (f :: body ++ g :: rest)
  = scan md_dir (length rest)
      (match strip (join [nl] body) with
       | [] => st
       | _ :: _ => add_code_block st (match fence_lang f with [] => lit "text" | t => t end)
                     (join [nl] body)
       end) rest.
Proof. apply fenced_block_scan. Qed.

Lemma fenced_code_block_stored_witness :
  scan (lit "/d") (length (lit "```py" :: [lit "x = 1"] ++ lit "```" :: []))
    init_state (lit "```py" :: [lit "x = 1"] ++ lit "```" :: [])
  = add_code_block init_state (lit "py") (lit "x = 1").
Proof.
  rewrite (fenced_code_block_stored (lit "/d") init_state (lit "```py") [lit "x = 1"]
             (lit "```") [] eq_refl eq_refl eq_refl eq_refl ltac:(repeat constructor) eq_refl).
  reflexivity.
Defined.

(** X10: once the title is set (non-empty), no later line changes it: the
    rest of the scan keeps the same title. *)
Theorem title_never_replaced md_dir fuel st lines :
  title st <> [] -> title (scan md_dir fuel st lines) = title st.
Proof. apply scan_keeps_title. Qed.

Lemma title_never_replaced_witness :
  title (mk_scan_state (lit "A") None [] [] [] [] false [] [] false 0) <> [] /\
  title (scan (lit "/d") 1 (mk_scan_state (lit "A") None [] [] [] [] false [] [] false 0)
           [lit "# B"]) = lit "A".
Proof.
  split; [discriminate|].
  apply (title_never_replaced (lit "/d") 1 (mk_scan_state (lit "A") None [] [] [] [] false [] [] false 0)
           [lit "# B"]).
  discriminate.
Defined.

(** X11: while no title is set, a [# ] line whose text is blank is dropped
    without setting the title, so a later [# ] line can still give it:
    [#  ] followed by [# B] gives the title [B] and no block. *)
Theorem blank_title_heading_skipped :
  (forall md_dir st l rest g,
     in_code_block st = false -> title st = [] -> h1_match l = Some g -> strip g = [] ->
     step md_dir st (l :: rest) = (st, rest)) /\
  (doc_title (parse_markdown (lit "/d") (lit "#  " ++ [nl] ++ lit "# B")) = lit "B" /\
   doc_total_blocks (parse_markdown (lit "/d") (lit "#  " ++ [nl] ++ lit "# B")) = 0).
Proof.
  split; [apply blank_title_step | split; vm_compute; reflexivity].
Qed.

Lemma blank_title_heading_skipped_witness :
  step (lit "/d") init_state [lit "#   "; lit "# B"] = (init_state, [lit "# B"]).
Proof.
  apply (proj1 blank_title_heading_skipped (lit "/d") init_state (lit "#   ") [lit "# B"] (lit "  "));
    reflexivity.
Defined.

(** X12: every entry the scan adds to the html body is one element whose
    tag is h2-h6, blockquote, ul, ol or p: the scan never emits an [<h1>],
    an image, a divider or a code block into the html. *)
Theorem html_blocks_never_h1 md_dir lines :
  Forall (fun b => exists t x, b = tag t x /\ block_tag_ok t = true)
    (body_lines (scan md_dir (length lines) init_state lines)).
Proof. apply (scan_html_blocks md_dir (length lines) init_state lines). constructor. Qed.

(** X13: when the markdown directory is absolute, the cover image and every
    content image path of the result is absolute or starts with [http]. *)
Theorem image_paths_absolute_or_http md_dir content :
  isabs md_dir = true ->
  (forall c, doc_cover_image (parse_markdown md_dir content) = Some c -> path_ok c = true) /\
  Forall (fun ci => path_ok (img_path ci) = true)
    (doc_content_images (parse_markdown md_dir content)).
Proof.
  intros Hm. unfold parse_markdown, parse_lines, finish. cbn [doc_cover_image doc_content_images].
  apply scan_images_ok; [exact Hm|]. split; [discriminate | constructor].
Qed.

Lemma image_paths_absolute_or_http_witness :
  isabs (lit "/d") = true /\
  Forall (fun ci => path_ok (img_path ci) = true)
    (doc_content_images (parse_markdown (lit "/d") (lit "![a](x.png)" ++ [nl] ++ lit "![b](../y.png)"))).
Proof.
  split; [reflexivity|].
  apply (proj2 (image_paths_absolute_or_http (lit "/d")
                  (lit "![a](x.png)" ++ [nl] ++ lit "![b](../y.png)") eq_refl)).
Defined.

(** X14: when no line is an image line, the result has no cover image and
    no content images. *)
Theorem no_image_line_no_cover md_dir lines :
  Forall (fun x => image_match (strip x) = None) lines ->
  doc_cover_image (parse_lines md_dir lines) = None /\
  doc_content_images (parse_lines md_dir lines) = [].
Proof.
  intros H. pose proof (scan_non_image md_dir (length lines) init_state lines H) as E.
  unfold image_fields in E. unfold parse_lines, finish. cbn [doc_cover_image doc_content_images].
  injection E as _ E1 E2. now rewrite E1, E2.
Qed.

Lemma no_image_line_no_cover_witness :
  doc_cover_image (parse_lines (lit "/d") [lit "a"; lit "- b"]) = None /\
  doc_content_images (parse_lines (lit "/d") [lit "a"; lit "- b"]) = [].
Proof. apply no_image_line_no_cover. repeat constructor. Defined.

(** X15: [strip_frontmatter] only removes a prefix of the text: its result
    is always a suffix of the input, and a text that does not start with
    [---] is returned unchanged. *)
Theorem frontmatter_strip_is_suffix text :
  (exists u, text = u ++ strip_frontmatter text) /\
  (starts_with (lit "---") text = false -> strip_frontmatter text = text).
Proof.
  split; [apply strip_frontmatter_suffix|].
  intros H. unfold strip_frontmatter. now rewrite H.
Qed.

(** X16: splitting at newlines loses nothing: joining the pieces with
    newlines gives back the text, and no piece contains a newline. *)
Theorem line_split_round_trip s :
  join [nl] (split_on nl s) = s /\
  Forall (fun x => forallb (fun c => negb (ceq c nl)) x = true) (split_on nl s).
Proof. split; [apply join_split_on | apply split_on_no_sep]. Qed.

(** X17: [inline_format] converts a single span over a non-empty text free
    of newlines and of [*], [~], backquote and [[]: [**x**] to
    [<strong>x</strong>], [*x*] to [<em>x</em>], [~~x~~] to [<del>x</del>],
    a backquoted [x] to [<strong>x</strong>], and [[a](b)] (no [ ]] in a, no
    [)] in b) to [<a href="b">a</a>]. *)
Theorem inline_spans_converted :
  (forall x, x <> [] -> forallb plain_char x = true ->
     inline_format (lit "**" ++ x ++ lit "**") = lit "<strong>" ++ x ++ lit "</strong>" /\
     inline_format (lit "*" ++ x ++ lit "*") = lit "<em>" ++ x ++ lit "</em>" /\
     inline_format (lit "~~" ++ x ++ lit "~~") = lit "<del>" ++ x ++ lit "</del>" /\
     inline_format (lit "`" ++ x ++ lit "`") = lit "<strong>" ++ x ++ lit "</strong>") /\
  (forall a b, a <> [] -> b <> [] -> forallb plain_char a = true -> forallb plain_char b = true ->
     forallb (fun c => negb (ceq c "]"%char)) a = true ->
     forallb (fun c => negb (ceq c ")"%char)) b = true ->
     inline_format (lit "[" ++ a ++ lit "](" ++ b ++ lit ")")
     = lit "<a href=" ++ [dquote] ++ b ++ [dquote] ++ lit ">" ++ a ++ lit "</a>").
Proof.
  split.
  - intros x Hx Hp. repeat split.
    + now apply inline_bold.
    + now apply inline_italic.
    + now apply inline_strike.
    + now apply inline_code_span.
  - apply inline_link.
Qed.

Lemma inline_spans_converted_witness :
  inline_format (lit "**a b**") = lit "<strong>a b</strong>" /\
  inline_format (lit "[ab](c d)") = lit "<a href=" ++ [dquote] ++ lit "c d" ++ [dquote] ++ lit ">ab</a>".
Proof.
  split.
  - exact (proj1 (proj1 inline_spans_converted (lit "a b") ltac:(discriminate) eq_refl)).
  - exact (proj2 inline_spans_converted (lit "ab") (lit "c d") ltac:(discriminate) ltac:(discriminate)
             eq_refl eq_refl eq_refl eq_refl).
Defined.
